(** * TalaTrivia API: a shallow embedding of [app/main.py] and its models

    The FastAPI handlers of [src/app/main.py] are embedded as functions over
    an explicit database value.  Tables are lists of rows in rowid order (the
    order in which SQLite returns them from an unordered query); a handler
    that writes returns the database after its [db.commit()], a handler that
    raises returns the database it was given (its session is closed without
    a commit). *)

From stdpp Require Import base decidable option list strings gmap pretty sorting.
From Stdlib Require Import ZArith Lia.

Local Open Scope Z_scope.

(** ** app/models.py *)

Module Usuario.
Record t := Build { id : Z; nombre : string; email : string }.
#[global] Instance eq_dec : EqDecision t.
Proof. solve_decision. Defined.
End Usuario.

Module Pregunta.
Record t := Build {
  id : Z;
  texto_pregunta : string;
  opciones : list (string * string);
  respuesta_correcta : string;
  dificultad : string
}.
#[global] Instance eq_dec : EqDecision t.
Proof. solve_decision. Defined.
End Pregunta.

Module Trivia.
Record t := Build {
  id : Z;
  nombre : string;
  descripcion : option string;
  fecha_creacion : Z
}.
#[global] Instance eq_dec : EqDecision t.
Proof. solve_decision. Defined.
End Trivia.

Module TriviaPregunta.
Record t := Build { id : Z; trivia_id : Z; pregunta_id : Z }.
#[global] Instance eq_dec : EqDecision t.
Proof. solve_decision. Defined.
End TriviaPregunta.

Module TriviaUsuario.
Record t := Build { id : Z; trivia_id : Z; usuario_id : Z }.
#[global] Instance eq_dec : EqDecision t.
Proof. solve_decision. Defined.
End TriviaUsuario.

Module Participacion.
Record t := Build {
  id : Z;
  usuario_id : Z;
  trivia_id : Z;
  pregunta_id : Z;
  respuesta_dada : string;
  es_correcta : Z;
  puntaje_obtenido : Z;
  fecha_respuesta : Z
}.
#[global] Instance eq_dec : EqDecision t.
Proof. solve_decision. Defined.
End Participacion.

(** ** app/schemas.py *)

Module UsuarioCreate.
Record t := Build { nombre : string; email : string }.
End UsuarioCreate.

Module PreguntaCreate.
Record t := Build {
  texto_pregunta : string;
  opciones : list (string * string);
  respuesta_correcta : string;
  dificultad : string
}.
End PreguntaCreate.

Module TriviaCreate.
Record t := Build {
  nombre : string;
  descripcion : option string;
  pregunta_ids : list Z;
  usuario_ids : list Z
}.
End TriviaCreate.

Module PreguntaJugador.
Record t := Build {
  id : Z;
  texto_pregunta : string;
  opciones : list (string * string)
}.
#[global] Instance eq_dec : EqDecision t.
Proof. solve_decision. Defined.
End PreguntaJugador.

Module ParticipacionCreate.
Record t := Build {
  usuario_id : Z;
  trivia_id : Z;
  pregunta_id : Z;
  respuesta_dada : string
}.
End ParticipacionCreate.

Module RankingItem.
Record t := Build {
  posicion : Z;
  usuario_id : Z;
  usuario_nombre : string;
  puntaje_total : Z
}.
End RankingItem.

Module RankingResponse.
Record t := Build {
  trivia_id : Z;
  trivia_nombre : string;
  ranking : list RankingItem.t
}.
End RankingResponse.

(** The dictionary returned by [obtener_puntaje_usuario]. *)
Module Puntaje.
Record t := Build {
  usuario_id : Z;
  trivia_id : Z;
  puntaje_total : Z;
  total_respuestas : Z;
  respuestas_correctas : Z
}.
End Puntaje.

(** ** The database behind a [Session] *)

Record Session := {
  usuarios : list Usuario.t;
  preguntas : list Pregunta.t;
  trivias : list Trivia.t;
  trivia_preguntas : list TriviaPregunta.t;
  trivia_usuarios : list TriviaUsuario.t;
  participaciones : list Participacion.t
}.

Definition db_vacia : Session :=
  {| usuarios := []; preguntas := []; trivias := [];
     trivia_preguntas := []; trivia_usuarios := []; participaciones := [] |}.

(** An [Integer] primary key on SQLite is the rowid: a row inserted without
    one gets the largest rowid of its table plus one (1 in an empty table). *)
Definition nuevo_id (ids : list Z) : Z := foldr Z.max 0 ids + 1.

(** ** Exceptions and results *)

(** The status codes of [fastapi.status] that the handlers raise, and the
    one that HTTP gives to a conflict, which they never raise. *)
Definition HTTP_400_BAD_REQUEST : Z := 400.
Definition HTTP_403_FORBIDDEN : Z := 403.
Definition HTTP_404_NOT_FOUND : Z := 404.
Definition HTTP_409_CONFLICT : Z := 409.

Inductive Exception :=
  | HTTPException (status_code : Z) (detail : string)
  | AttributeError
  | OverflowError.

Inductive Result (A : Type) :=
  | Return (a : A)
  | Raise (e : Exception).
Arguments Return {A} a.
Arguments Raise {A} e.

(** ** Ids as SQL parameters

    An id of a request is a Python [int] of any size, and [sqlite3] raises
    [OverflowError] when it is asked to bind one that does not fit in the
    eight signed bytes of an SQLite INTEGER: the handler does not catch it,
    and nothing is stored.  Each handler checks the ids of its request where
    its first query that binds them runs.  The keys that the tables hold are
    SQLite INTEGERs, so an id that is the key of a stored row binds, and so
    do the ids that the loops of [ver_trivia_jugador] and [obtener_ranking]
    read from stored rows.  The tables of the model hold keys in [Z]:
    [enlaza] lets an id bind when it fits or when it is a stored key, and
    where every stored key fits, as in every SQLite file, [enlaza] is [cabe]
    ([enlaza_cabe]). *)
Definition INT64_MIN : Z := -9223372036854775808.
Definition INT64_MAX : Z := 9223372036854775807.

Definition cabe (n : Z) : Prop := INT64_MIN ≤ n ≤ INT64_MAX.

Definition enlaza (claves : list Z) (n : Z) : Prop := cabe n ∨ n ∈ claves.

Definition enlaza_usuario (db : Session) (usuario_id : Z) : Prop :=
  enlaza (Usuario.id <$> usuarios db) usuario_id.

Definition enlaza_pregunta (db : Session) (pregunta_id : Z) : Prop :=
  enlaza (Pregunta.id <$> preguntas db) pregunta_id.

Definition enlaza_trivia (db : Session) (trivia_id : Z) : Prop :=
  enlaza (Trivia.id <$> trivias db) trivia_id.

#[global] Instance cabe_dec (n : Z) : Decision (cabe n).
Proof. unfold cabe. apply _. Defined.

#[global] Instance enlaza_dec (claves : list Z) (n : Z) : Decision (enlaza claves n).
Proof. unfold enlaza. apply _. Defined.

#[global] Instance enlaza_usuario_dec db n : Decision (enlaza_usuario db n).
Proof. unfold enlaza_usuario. apply _. Defined.

#[global] Instance enlaza_pregunta_dec db n : Decision (enlaza_pregunta db n).
Proof. unfold enlaza_pregunta. apply _. Defined.

#[global] Instance enlaza_trivia_dec db n : Decision (enlaza_trivia db n).
Proof. unfold enlaza_trivia. apply _. Defined.

(** [db.add(row); db.commit(); db.refresh(row)], one function per table: the
    row is built from its generated primary key and appended to its table. *)

Definition add_usuario (mk : Z → Usuario.t) (db : Session) : Usuario.t * Session :=
  let row := mk (nuevo_id (Usuario.id <$> usuarios db)) in
  (row,
   {| usuarios := usuarios db ++ [row];
      preguntas := preguntas db;
      trivias := trivias db;
      trivia_preguntas := trivia_preguntas db;
      trivia_usuarios := trivia_usuarios db;
      participaciones := participaciones db |}).

Definition add_pregunta (mk : Z → Pregunta.t) (db : Session) : Pregunta.t * Session :=
  let row := mk (nuevo_id (Pregunta.id <$> preguntas db)) in
  (row,
   {| usuarios := usuarios db;
      preguntas := preguntas db ++ [row];
      trivias := trivias db;
      trivia_preguntas := trivia_preguntas db;
      trivia_usuarios := trivia_usuarios db;
      participaciones := participaciones db |}).

Definition add_trivia (mk : Z → Trivia.t) (db : Session) : Trivia.t * Session :=
  let row := mk (nuevo_id (Trivia.id <$> trivias db)) in
  (row,
   {| usuarios := usuarios db;
      preguntas := preguntas db;
      trivias := trivias db ++ [row];
      trivia_preguntas := trivia_preguntas db;
      trivia_usuarios := trivia_usuarios db;
      participaciones := participaciones db |}).

Definition add_trivia_pregunta (mk : Z → TriviaPregunta.t) (db : Session) : Session :=
  let row := mk (nuevo_id (TriviaPregunta.id <$> trivia_preguntas db)) in
  {| usuarios := usuarios db;
     preguntas := preguntas db;
     trivias := trivias db;
     trivia_preguntas := trivia_preguntas db ++ [row];
     trivia_usuarios := trivia_usuarios db;
     participaciones := participaciones db |}.

Definition add_trivia_usuario (mk : Z → TriviaUsuario.t) (db : Session) : Session :=
  let row := mk (nuevo_id (TriviaUsuario.id <$> trivia_usuarios db)) in
  {| usuarios := usuarios db;
     preguntas := preguntas db;
     trivias := trivias db;
     trivia_preguntas := trivia_preguntas db;
     trivia_usuarios := trivia_usuarios db ++ [row];
     participaciones := participaciones db |}.

Definition add_participacion (mk : Z → Participacion.t) (db : Session)
  : Participacion.t * Session :=
  let row := mk (nuevo_id (Participacion.id <$> participaciones db)) in
  (row,
   {| usuarios := usuarios db;
      preguntas := preguntas db;
      trivias := trivias db;
      trivia_preguntas := trivia_preguntas db;
      trivia_usuarios := trivia_usuarios db;
      participaciones := participaciones db ++ [row] |}).

(** Python's [sum], [len], [sep.join] and [enumerate(_, start)]. *)
Definition sum (l : list Z) : Z := foldl Z.add 0 l.

Definition len {A} (l : list A) : Z := Z.of_nat (length l).

Fixpoint join (sep : string) (l : list string) : string :=
  match l with
  | [] => ""
  | [x] => x
  | x :: l' => x +:+ sep +:+ join sep l'
  end.

Fixpoint enumerate {A} (start : Z) (l : list A) : list (Z * A) :=
  match l with
  | [] => []
  | x :: l' => (start, x) :: enumerate (start + 1) l'
  end.

(** [l.sort(key=key, reverse=True)]: a stable sort into descending key
    order; rows with equal keys keep the order they had in [l]. *)
Fixpoint insert_reverse {A} (key : A → Z) (x : A) (l : list A) : list A :=
  match l with
  | [] => [x]
  | y :: l' =>
      if decide (key x < key y) then y :: insert_reverse key x l'
      else x :: y :: l'
  end.

Fixpoint sort_reverse {A} (key : A → Z) (l : list A) : list A :=
  match l with
  | [] => []
  | x :: l' => insert_reverse key x (sort_reverse key l')
  end.

(** ** ENDPOINTS DE USUARIOS *)

Definition crear_usuario (usuario : UsuarioCreate.t) (db : Session)
  : Result Usuario.t * Session :=
  let usuario_existente :=
    head (filter (λ u, Usuario.email u = UsuarioCreate.email usuario) (usuarios db)) in
  match usuario_existente with
  | Some _ =>
      (Raise (HTTPException HTTP_400_BAD_REQUEST "El email ya está registrado"), db)
  | None =>
      let '(nuevo_usuario, db) :=
        add_usuario (λ id, Usuario.Build id (UsuarioCreate.nombre usuario)
                                            (UsuarioCreate.email usuario)) db in
      (Return nuevo_usuario, db)
  end.

Definition listar_usuarios (db : Session) : Result (list Usuario.t) :=
  Return (usuarios db).

Definition obtener_usuario (usuario_id : Z) (db : Session) : Result Usuario.t :=
  if decide (¬ enlaza_usuario db usuario_id) then Raise OverflowError else
  match head (filter (λ u, Usuario.id u = usuario_id) (usuarios db)) with
  | None =>
      Raise (HTTPException HTTP_404_NOT_FOUND
               ("Usuario con ID " +:+ pretty usuario_id +:+ " no encontrado"))
  | Some usuario => Return usuario
  end.

(** ** ENDPOINTS DE PREGUNTAS *)

Definition dificultades_validas : list string := ["fácil"; "medio"; "difícil"].

Definition crear_pregunta (pregunta : PreguntaCreate.t) (db : Session)
  : Result Pregunta.t * Session :=
  if decide (PreguntaCreate.respuesta_correcta pregunta
               ∉ (fst <$> PreguntaCreate.opciones pregunta)) then
    (Raise (HTTPException HTTP_400_BAD_REQUEST
              "La respuesta correcta debe estar en las opciones"), db)
  else if decide (PreguntaCreate.dificultad pregunta ∉ dificultades_validas) then
    (Raise (HTTPException HTTP_400_BAD_REQUEST
              ("La dificultad debe ser una de: " +:+ join ", " dificultades_validas)), db)
  else
    let '(nueva_pregunta, db) :=
      add_pregunta (λ id, Pregunta.Build id
                            (PreguntaCreate.texto_pregunta pregunta)
                            (PreguntaCreate.opciones pregunta)
                            (PreguntaCreate.respuesta_correcta pregunta)
                            (PreguntaCreate.dificultad pregunta)) db in
    (Return nueva_pregunta, db).

Definition listar_preguntas (db : Session) : Result (list Pregunta.t) :=
  Return (preguntas db).

Definition obtener_pregunta (pregunta_id : Z) (db : Session) : Result Pregunta.t :=
  if decide (¬ enlaza_pregunta db pregunta_id) then Raise OverflowError else
  match head (filter (λ p, Pregunta.id p = pregunta_id) (preguntas db)) with
  | None =>
      Raise (HTTPException HTTP_404_NOT_FOUND
               ("Pregunta con ID " +:+ pretty pregunta_id +:+ " no encontrada"))
  | Some pregunta => Return pregunta
  end.

(** ** ENDPOINTS DE TRIVIAS *)

(** [ahora] is the value of [func.now()] when the row is inserted.  Each
    [in_] query binds every id of its list. *)
Definition crear_trivia (trivia : TriviaCreate.t) (ahora : Z) (db : Session)
  : Result Trivia.t * Session :=
  if decide (¬ Forall (enlaza_pregunta db) (TriviaCreate.pregunta_ids trivia)) then
    (Raise OverflowError, db)
  else
  let preguntas_ :=
    filter (λ p, Pregunta.id p ∈ TriviaCreate.pregunta_ids trivia) (preguntas db) in
  if decide (len preguntas_ ≠ len (TriviaCreate.pregunta_ids trivia)) then
    (Raise (HTTPException HTTP_400_BAD_REQUEST "Alguna pregunta no existe"), db)
  else
    if decide (¬ Forall (enlaza_usuario db) (TriviaCreate.usuario_ids trivia)) then
      (Raise OverflowError, db)
    else
    let usuarios_ :=
      filter (λ u, Usuario.id u ∈ TriviaCreate.usuario_ids trivia) (usuarios db) in
    if decide (len usuarios_ ≠ len (TriviaCreate.usuario_ids trivia)) then
      (Raise (HTTPException HTTP_400_BAD_REQUEST "Algún usuario no existe"), db)
    else
      let '(nueva_trivia, db) :=
        add_trivia (λ id, Trivia.Build id (TriviaCreate.nombre trivia)
                                          (TriviaCreate.descripcion trivia) ahora) db in
      let db :=
        foldl (λ db pregunta_id,
                 add_trivia_pregunta
                   (λ id, TriviaPregunta.Build id (Trivia.id nueva_trivia) pregunta_id) db)
              db (TriviaCreate.pregunta_ids trivia) in
      let db :=
        foldl (λ db usuario_id,
                 add_trivia_usuario
                   (λ id, TriviaUsuario.Build id (Trivia.id nueva_trivia) usuario_id) db)
              db (TriviaCreate.usuario_ids trivia) in
      (Return nueva_trivia, db).

Definition listar_trivias (db : Session) : Result (list Trivia.t) :=
  Return (trivias db).

Definition obtener_trivia (trivia_id : Z) (db : Session) : Result Trivia.t :=
  if decide (¬ enlaza_trivia db trivia_id) then Raise OverflowError else
  match head (filter (λ t, Trivia.id t = trivia_id) (trivias db)) with
  | None =>
      Raise (HTTPException HTTP_404_NOT_FOUND
               ("Trivia con ID " +:+ pretty trivia_id +:+ " no encontrada"))
  | Some trivia => Return trivia
  end.

(** ** ENDPOINTS DE PARTICIPACIÓN *)

Definition ver_trivia_jugador (trivia_id usuario_id : Z) (db : Session)
  : Result (list PreguntaJugador.t) :=
  if decide (¬ (enlaza_trivia db trivia_id ∧ enlaza_usuario db usuario_id)) then
    Raise OverflowError
  else
  let asignacion :=
    head (filter (λ a, TriviaUsuario.trivia_id a = trivia_id
                       ∧ TriviaUsuario.usuario_id a = usuario_id)
                 (trivia_usuarios db)) in
  match asignacion with
  | None =>
      Raise (HTTPException HTTP_404_NOT_FOUND
               "El usuario no está asignado a esta trivia")
  | Some _ =>
      let trivia_preguntas_ :=
        filter (λ tp, TriviaPregunta.trivia_id tp = trivia_id) (trivia_preguntas db) in
      let preguntas_jugador :=
        foldl (λ preguntas_jugador tp,
                 match head (filter (λ p, Pregunta.id p = TriviaPregunta.pregunta_id tp)
                                    (preguntas db)) with
                 | Some pregunta =>
                     preguntas_jugador ++
                     [PreguntaJugador.Build (Pregunta.id pregunta)
                                            (Pregunta.texto_pregunta pregunta)
                                            (Pregunta.opciones pregunta)]
                 | None => preguntas_jugador
                 end)
              [] trivia_preguntas_ in
      Return preguntas_jugador
  end.

Definition puntajes : gmap string Z :=
  <["fácil" := 1]> (<["medio" := 2]> (<["difícil" := 3]> ∅)).

(** [ahora] is the value of [func.now()] when the row is inserted.  A
    question that is linked to the trivia but missing from [preguntas] makes
    [pregunta.respuesta_correcta] raise on [None]. *)
Definition responder_pregunta (trivia_id : Z) (participacion : ParticipacionCreate.t)
    (ahora : Z) (db : Session) : Result Participacion.t * Session :=
  if decide (¬ enlaza_trivia db trivia_id) then (Raise OverflowError, db) else
  match head (filter (λ t, Trivia.id t = trivia_id) (trivias db)) with
  | None =>
      (Raise (HTTPException HTTP_404_NOT_FOUND
                ("Trivia con ID " +:+ pretty trivia_id +:+ " no encontrada")), db)
  | Some trivia =>
  if decide (¬ enlaza_usuario db (ParticipacionCreate.usuario_id participacion)) then
    (Raise OverflowError, db)
  else
  match head (filter (λ a, TriviaUsuario.trivia_id a = trivia_id
                           ∧ TriviaUsuario.usuario_id a
                             = ParticipacionCreate.usuario_id participacion)
                     (trivia_usuarios db)) with
  | None =>
      (Raise (HTTPException HTTP_403_FORBIDDEN
                "El usuario no está asignado a esta trivia"), db)
  | Some asignacion =>
  if decide (¬ enlaza_pregunta db (ParticipacionCreate.pregunta_id participacion)) then
    (Raise OverflowError, db)
  else
  match head (filter (λ tp, TriviaPregunta.trivia_id tp = trivia_id
                            ∧ TriviaPregunta.pregunta_id tp
                              = ParticipacionCreate.pregunta_id participacion)
                     (trivia_preguntas db)) with
  | None =>
      (Raise (HTTPException HTTP_400_BAD_REQUEST
                "La pregunta no pertenece a esta trivia"), db)
  | Some pregunta_en_trivia =>
  match head (filter (λ p, Participacion.usuario_id p
                             = ParticipacionCreate.usuario_id participacion
                           ∧ Participacion.trivia_id p = trivia_id
                           ∧ Participacion.pregunta_id p
                             = ParticipacionCreate.pregunta_id participacion)
                     (participaciones db)) with
  | Some participacion_existente =>
      (Raise (HTTPException HTTP_400_BAD_REQUEST
                "Ya has respondido esta pregunta"), db)
  | None =>
  match head (filter (λ p, Pregunta.id p = ParticipacionCreate.pregunta_id participacion)
                     (preguntas db)) with
  | None => (Raise AttributeError, db)
  | Some pregunta =>
      let es_correcta :=
        if decide (ParticipacionCreate.respuesta_dada participacion
                   = Pregunta.respuesta_correcta pregunta) then 1 else 0 in
      let puntaje_obtenido :=
        if decide (es_correcta ≠ 0)
        then default 0 (puntajes !! Pregunta.dificultad pregunta)
        else 0 in
      let '(nueva_participacion, db) :=
        add_participacion
          (λ id, Participacion.Build id
                   (ParticipacionCreate.usuario_id participacion)
                   trivia_id
                   (ParticipacionCreate.pregunta_id participacion)
                   (ParticipacionCreate.respuesta_dada participacion)
                   es_correcta
                   puntaje_obtenido
                   ahora) db in
      (Return nueva_participacion, db)
  end end end end end.

Definition obtener_puntaje_usuario (trivia_id usuario_id : Z) (db : Session)
  : Result Puntaje.t :=
  if decide (¬ (enlaza_trivia db trivia_id ∧ enlaza_usuario db usuario_id)) then
    Raise OverflowError
  else
  let participaciones_ :=
    filter (λ p, Participacion.trivia_id p = trivia_id
                 ∧ Participacion.usuario_id p = usuario_id)
           (participaciones db) in
  let puntaje_total := sum (Participacion.puntaje_obtenido <$> participaciones_) in
  Return
    {| Puntaje.usuario_id := usuario_id;
       Puntaje.trivia_id := trivia_id;
       Puntaje.puntaje_total := puntaje_total;
       Puntaje.total_respuestas := len participaciones_;
       Puntaje.respuestas_correctas :=
         sum ((λ _, 1) <$> filter (λ p, Participacion.es_correcta p = 1) participaciones_) |}.

(** ** ENDPOINT DE RANKING *)

(** The dictionaries appended to [ranking_items]. *)
Record Item := {
  item_usuario_id : Z;
  item_usuario_nombre : string;
  item_puntaje_total : Z
}.

(** The first loop of [obtener_ranking]; [usuario.id] raises on [None] when
    an assignment names a user that is not in [usuarios]. *)
Fixpoint ranking_items (trivia_id : Z) (db : Session)
    (asignaciones : list TriviaUsuario.t) (acc : list Item) : Result (list Item) :=
  match asignaciones with
  | [] => Return acc
  | asignacion :: resto =>
      match head (filter (λ u, Usuario.id u = TriviaUsuario.usuario_id asignacion)
                         (usuarios db)) with
      | None => Raise AttributeError
      | Some usuario =>
          let participaciones_ :=
            filter (λ p, Participacion.trivia_id p = trivia_id
                         ∧ Participacion.usuario_id p = Usuario.id usuario)
                   (participaciones db) in
          let puntaje_total := sum (Participacion.puntaje_obtenido <$> participaciones_) in
          ranking_items trivia_id db resto
            (acc ++ [{| item_usuario_id := Usuario.id usuario;
                        item_usuario_nombre := Usuario.nombre usuario;
                        item_puntaje_total := puntaje_total |}])
      end
  end.

Definition obtener_ranking (trivia_id : Z) (db : Session) : Result RankingResponse.t :=
  if decide (¬ enlaza_trivia db trivia_id) then Raise OverflowError else
  match head (filter (λ t, Trivia.id t = trivia_id) (trivias db)) with
  | None =>
      Raise (HTTPException HTTP_404_NOT_FOUND
               ("Trivia con ID " +:+ pretty trivia_id +:+ " no encontrada"))
  | Some trivia =>
      let asignaciones :=
        filter (λ a, TriviaUsuario.trivia_id a = trivia_id) (trivia_usuarios db) in
      match ranking_items trivia_id db asignaciones [] with
      | Raise e => Raise e
      | Return items =>
          let items := sort_reverse item_puntaje_total items in
          let ranking_final :=
            foldl (λ ranking_final '(posicion, item),
                     ranking_final ++
                     [RankingItem.Build posicion
                        (item_usuario_id item)
                        (item_usuario_nombre item)
                        (item_puntaje_total item)])
                  [] (enumerate 1 items) in
          Return (RankingResponse.Build trivia_id (Trivia.nombre trivia) ranking_final)
      end
  end.

(** ** Requests and the states they reach *)

Inductive Peticion :=
  | POST_usuarios (usuario : UsuarioCreate.t)
  | GET_usuarios
  | GET_usuario (usuario_id : Z)
  | POST_preguntas (pregunta : PreguntaCreate.t)
  | GET_preguntas
  | GET_pregunta (pregunta_id : Z)
  | POST_trivias (trivia : TriviaCreate.t) (ahora : Z)
  | GET_trivias
  | GET_trivia (trivia_id : Z)
  | GET_trivia_jugador (trivia_id usuario_id : Z)
  | POST_responder (trivia_id : Z) (participacion : ParticipacionCreate.t) (ahora : Z)
  | GET_puntaje (trivia_id usuario_id : Z)
  | GET_ranking (trivia_id : Z).

(** The database after a request has been served.  The [GET] handlers take
    the database and return only their response. *)
Definition atender (r : Peticion) (db : Session) : Session :=
  match r with
  | POST_usuarios usuario => (crear_usuario usuario db).2
  | POST_preguntas pregunta => (crear_pregunta pregunta db).2
  | POST_trivias trivia ahora => (crear_trivia trivia ahora db).2
  | POST_responder trivia_id participacion ahora =>
      (responder_pregunta trivia_id participacion ahora db).2
  | GET_usuarios | GET_usuario _ | GET_preguntas | GET_pregunta _
  | GET_trivias | GET_trivia _ | GET_trivia_jugador _ _
  | GET_puntaje _ _ | GET_ranking _ => db
  end.

Inductive alcanzable : Session → Prop :=
  | alcanzable_vacia : alcanzable db_vacia
  | alcanzable_paso r db : alcanzable db → alcanzable (atender r db).

(** ** Scenarios of the specification, run on the model *)

Definition ej_peticiones : list Peticion :=
  [ POST_usuarios (UsuarioCreate.Build "Ana" "ana@tala.cl");
    POST_usuarios (UsuarioCreate.Build "Beto" "beto@tala.cl");
    POST_usuarios (UsuarioCreate.Build "Caro" "caro@tala.cl");
    POST_preguntas (PreguntaCreate.Build "P1" [("A", "x"); ("B", "y")] "B" "medio");
    POST_preguntas (PreguntaCreate.Build "P2" [("A", "x"); ("B", "y")] "A" "difícil");
    POST_preguntas (PreguntaCreate.Build "P3" [("A", "x"); ("B", "y")] "A" "fácil");
    POST_trivias (TriviaCreate.Build "RRHH" None [1; 2; 3] [1; 2; 3]) 100;
    POST_responder 1 (ParticipacionCreate.Build 2 1 1 "B") 101;
    POST_responder 1 (ParticipacionCreate.Build 3 1 1 "B") 102;
    POST_responder 1 (ParticipacionCreate.Build 1 1 2 "A") 103;
    POST_responder 1 (ParticipacionCreate.Build 1 1 1 "b") 104 ].

Definition ej_db : Session :=
  Eval vm_compute in foldl (λ db r, atender r db) db_vacia ej_peticiones.

Definition ej_respuesta : ParticipacionCreate.t := ParticipacionCreate.Build 2 1 2 "A".

Definition ej_participacion : Participacion.t :=
  Eval vm_compute in
    match (responder_pregunta 1 ej_respuesta 105 ej_db).1 with
    | Return r => r
    | Raise _ => Participacion.Build 0 0 0 0 "" 0 0 0
    end.

Definition ej_db' : Session :=
  Eval vm_compute in (responder_pregunta 1 ej_respuesta 105 ej_db).2.

(** ** What the validations of [responder_pregunta] look for *)

Definition existe_trivia (db : Session) (trivia_id : Z) : Prop :=
  ∃ t, t ∈ trivias db ∧ Trivia.id t = trivia_id.

Definition usuario_asignado (db : Session) (trivia_id usuario_id : Z) : Prop :=
  ∃ a, a ∈ trivia_usuarios db
       ∧ TriviaUsuario.trivia_id a = trivia_id
       ∧ TriviaUsuario.usuario_id a = usuario_id.

Definition pregunta_en_trivia (db : Session) (trivia_id pregunta_id : Z) : Prop :=
  ∃ tp, tp ∈ trivia_preguntas db
        ∧ TriviaPregunta.trivia_id tp = trivia_id
        ∧ TriviaPregunta.pregunta_id tp = pregunta_id.

Definition ya_respondida (db : Session) (usuario_id trivia_id pregunta_id : Z) : Prop :=
  ∃ p, p ∈ participaciones db
       ∧ Participacion.usuario_id p = usuario_id
       ∧ Participacion.trivia_id p = trivia_id
       ∧ Participacion.pregunta_id p = pregunta_id.

Definition error_trivia (trivia_id : Z) : Exception :=
  HTTPException HTTP_404_NOT_FOUND ("Trivia con ID " +:+ pretty trivia_id +:+ " no encontrada").
Definition error_no_asignado : Exception :=
  HTTPException HTTP_403_FORBIDDEN "El usuario no está asignado a esta trivia".
Definition error_no_pertenece : Exception :=
  HTTPException HTTP_400_BAD_REQUEST "La pregunta no pertenece a esta trivia".
Definition error_ya_respondida : Exception :=
  HTTPException HTTP_400_BAD_REQUEST "Ya has respondido esta pregunta".

Definition email_registrado (db : Session) (email : string) : Prop :=
  ∃ u, u ∈ usuarios db ∧ Usuario.email u = email.

(** What a player is shown of a question: the three fields that
    [ver_trivia_jugador] copies into a [PreguntaJugador]. *)
Definition vista_jugador (pregunta : Pregunta.t) : PreguntaJugador.t :=
  PreguntaJugador.Build (Pregunta.id pregunta)
                        (Pregunta.texto_pregunta pregunta)
                        (Pregunta.opciones pregunta).

(** ** Integrity of the database

    The primary keys of the tables that are looked up by id, the foreign
    keys of the two link tables, and the uniqueness of assignments and of
    participations. *)
Record consistente (db : Session) : Prop := {
  usuarios_pk : NoDup (Usuario.id <$> usuarios db);
  preguntas_pk : NoDup (Pregunta.id <$> preguntas db);
  trivias_pk : NoDup (Trivia.id <$> trivias db);
  trivia_preguntas_fk :
    ∀ tp, tp ∈ trivia_preguntas db →
      TriviaPregunta.trivia_id tp ∈ (Trivia.id <$> trivias db)
      ∧ TriviaPregunta.pregunta_id tp ∈ (Pregunta.id <$> preguntas db);
  trivia_usuarios_fk :
    ∀ a, a ∈ trivia_usuarios db →
      TriviaUsuario.trivia_id a ∈ (Trivia.id <$> trivias db)
      ∧ TriviaUsuario.usuario_id a ∈ (Usuario.id <$> usuarios db);
  trivia_usuarios_unicas :
    NoDup ((λ a, (TriviaUsuario.trivia_id a, TriviaUsuario.usuario_id a))
             <$> trivia_usuarios db);
  participaciones_unicas :
    NoDup ((λ p, (Participacion.usuario_id p, Participacion.trivia_id p,
                  Participacion.pregunta_id p)) <$> participaciones db)
}.

(** Rows are only ever appended. *)
Record crece (db db' : Session) : Prop := {
  crece_usuarios : usuarios db `prefix_of` usuarios db';
  crece_preguntas : preguntas db `prefix_of` preguntas db';
  crece_trivias : trivias db `prefix_of` trivias db';
  crece_trivia_preguntas : trivia_preguntas db `prefix_of` trivia_preguntas db';
  crece_trivia_usuarios : trivia_usuarios db `prefix_of` trivia_usuarios db';
  crece_participaciones : participaciones db `prefix_of` participaciones db'
}.

(** The points a user has earned in a trivia: the sum that both
    [obtener_puntaje_usuario] and [obtener_ranking] compute. *)
Definition puntos_de (db : Session) (trivia_id usuario_id : Z) : Z :=
  sum (Participacion.puntaje_obtenido <$>
         filter (λ p, Participacion.trivia_id p = trivia_id
                      ∧ Participacion.usuario_id p = usuario_id)
                (participaciones db)).

(** What the handlers keep true of the rows they store, beyond the keys:
    emails are unique, questions are well formed, a question is linked to a
    trivia at most once, and a participation belongs to an assignment and to
    a question of the trivia and carries the grading of that question. *)
Record integra (db : Session) : Prop := {
  emails_unicos : NoDup (Usuario.email <$> usuarios db);
  preguntas_validas :
    ∀ q, q ∈ preguntas db →
      Pregunta.respuesta_correcta q ∈ (fst <$> Pregunta.opciones q)
      ∧ Pregunta.dificultad q ∈ dificultades_validas;
  trivia_preguntas_unicas :
    NoDup ((λ tp, (TriviaPregunta.trivia_id tp, TriviaPregunta.pregunta_id tp))
             <$> trivia_preguntas db);
  participaciones_fk :
    ∀ p, p ∈ participaciones db →
      usuario_asignado db (Participacion.trivia_id p) (Participacion.usuario_id p)
      ∧ pregunta_en_trivia db (Participacion.trivia_id p) (Participacion.pregunta_id p);
  participaciones_calificadas :
    ∀ p, p ∈ participaciones db →
      ∃ q, q ∈ preguntas db
        ∧ Pregunta.id q = Participacion.pregunta_id p
        ∧ Participacion.es_correcta p
          = (if decide (Participacion.respuesta_dada p = Pregunta.respuesta_correcta q)
             then 1 else 0)
        ∧ Participacion.puntaje_obtenido p
          = (if decide (Participacion.respuesta_dada p = Pregunta.respuesta_correcta q)
             then default 0 (puntajes !! Pregunta.dificultad q) else 0)
}.

(** Closed decidable facts about the example database are settled by
    evaluating their decision procedure. *)
Ltac decidir :=
  match goal with
  | |- ?P => apply (bool_decide_unpack P); vm_compute; exact I
  end.

(** ** Queries: [query.filter(...).first()] *)

Section first.
Context {A : Type} (P : A → Prop) `{!∀ x, Decision (P x)}.

Lemma first_None (l : list A) :
  head (filter P l) = None ↔ ∀ x, x ∈ l → ¬ P x.
Proof.
  rewrite head_None. split.
  - intros Hnil x Hx HP. eapply filter_nil_not_elem_of; eauto.
  - intros Hno. destruct (filter P l) as [|y k] eqn:E; [done|].
    assert (Hy : y ∈ filter P l) by (rewrite E; left).
    apply list_elem_of_filter in Hy as [HP Hy]. by destruct (Hno y Hy).
Qed.

Lemma first_Some (l : list A) (x : A) :
  head (filter P l) = Some x → x ∈ l ∧ P x.
Proof.
  intros Hx. apply head_Some_elem_of, list_elem_of_filter in Hx. tauto.
Qed.

Lemma first_is_Some (l : list A) :
  (∃ x, x ∈ l ∧ P x) ↔ is_Some (head (filter P l)).
Proof.
  split.
  - intros (x & Hx & HP). destruct (head (filter P l)) eqn:E; [by eexists|].
    rewrite first_None in E. by destruct (E x Hx).
  - intros [x Hx]. exists x. by apply first_Some.
Qed.

End first.

(** ** Ids that bind *)

Lemma cabe_enlaza (claves : list Z) (n : Z) : cabe n → enlaza claves n.
Proof. by left. Qed.

Lemma clave_enlaza (claves : list Z) (n : Z) : n ∈ claves → enlaza claves n.
Proof. by right. Qed.

Lemma enlaza_app (claves nuevas : list Z) (n : Z) :
  enlaza claves n → enlaza (claves ++ nuevas) n.
Proof. intros [?|?]; [by left|right]. apply elem_of_app. by left. Qed.

(** Where the stored keys fit, an id binds exactly when it fits. *)
Lemma enlaza_cabe (claves : list Z) (n : Z) :
  Forall cabe claves → enlaza claves n ↔ cabe n.
Proof.
  rewrite Forall_forall. intros Hc. split; [|by left].
  intros [?|?]; [done|by apply Hc].
Qed.

Lemma existe_trivia_enlaza db trivia_id :
  existe_trivia db trivia_id → enlaza_trivia db trivia_id.
Proof. intros (t & Ht & <-). right. by apply list_elem_of_fmap_2. Qed.

(** ** Scoring *)

Lemma puntajes_facil : puntajes !! "fácil" = Some 1.
Proof. reflexivity. Qed.

Lemma puntajes_medio : puntajes !! "medio" = Some 2.
Proof. reflexivity. Qed.

Lemma puntajes_dificil : puntajes !! "difícil" = Some 3.
Proof. reflexivity. Qed.

Lemma puntajes_otra (d : string) :
  d ∉ dificultades_validas → puntajes !! d = None.
Proof.
  intros Hd. unfold puntajes, dificultades_validas in *.
  rewrite !not_elem_of_cons in Hd. destruct Hd as (H1 & H2 & H3 & _).
  rewrite !lookup_insert_ne by done. apply lookup_empty.
Qed.

(** What an accepted submission stores, in terms of the question it answers. *)
Lemma responder_pregunta_Return trivia_id participacion ahora db r db' :
  responder_pregunta trivia_id participacion ahora db = (Return r, db') →
  ∃ pregunta,
    head (filter (λ p, Pregunta.id p = ParticipacionCreate.pregunta_id participacion)
                 (preguntas db)) = Some pregunta
    ∧ head (filter (λ p, Participacion.usuario_id p
                           = ParticipacionCreate.usuario_id participacion
                         ∧ Participacion.trivia_id p = trivia_id
                         ∧ Participacion.pregunta_id p
                           = ParticipacionCreate.pregunta_id participacion)
                   (participaciones db)) = None
    ∧ r = Participacion.Build
            (nuevo_id (Participacion.id <$> participaciones db))
            (ParticipacionCreate.usuario_id participacion)
            trivia_id
            (ParticipacionCreate.pregunta_id participacion)
            (ParticipacionCreate.respuesta_dada participacion)
            (if decide (ParticipacionCreate.respuesta_dada participacion
                        = Pregunta.respuesta_correcta pregunta) then 1 else 0)
            (if decide (ParticipacionCreate.respuesta_dada participacion
                        = Pregunta.respuesta_correcta pregunta)
             then default 0 (puntajes !! Pregunta.dificultad pregunta) else 0)
            ahora
    ∧ db' = (add_participacion (λ _, r) db).2.
Proof.
  unfold responder_pregunta. intros H.
  repeat match type of H with
         | context [decide (¬ enlaza_trivia ?d ?n)] =>
             destruct (decide (¬ enlaza_trivia d n)); try discriminate H
         | context [decide (¬ enlaza_usuario ?d ?n)] =>
             destruct (decide (¬ enlaza_usuario d n)); try discriminate H
         | context [decide (¬ enlaza_pregunta ?d ?n)] =>
             destruct (decide (¬ enlaza_pregunta d n)); try discriminate H
         | context [match head ?l with _ => _ end] =>
             destruct (head l) eqn:?; try discriminate H
         end.
  eexists; split; [done|]. split; [done|].
  case_decide; simpl in H; injection H as <- <-; done.
Qed.

(** An accepted submission has bound its three ids. *)
Lemma responder_pregunta_Return_enlaza trivia_id participacion ahora db r db' :
  responder_pregunta trivia_id participacion ahora db = (Return r, db') →
  enlaza_trivia db trivia_id
  ∧ enlaza_usuario db (ParticipacionCreate.usuario_id participacion)
  ∧ enlaza_pregunta db (ParticipacionCreate.pregunta_id participacion).
Proof.
  unfold responder_pregunta. intros H.
  destruct (decide (¬ enlaza_trivia db trivia_id)) as [|Ht]; [discriminate H|].
  destruct (head (filter _ (trivias db))); [|discriminate H].
  destruct (decide (¬ enlaza_usuario db _)) as [|Hu]; [discriminate H|].
  destruct (head (filter _ (trivia_usuarios db))); [|discriminate H].
  destruct (decide (¬ enlaza_pregunta db _)) as [|Hq]; [discriminate H|].
  by repeat split; apply dec_stable.
Qed.

(** C1: in every accepted submission [es_correcta] is 1 exactly when
    [respuesta_dada] is the very string [respuesta_correcta] of the question
    (and 0 otherwise); a correct answer earns 1, 2 or 3 points for "fácil",
    "medio", "difícil" and 0 for any other difficulty, an incorrect one
    earns 0. *)
Theorem responder_pregunta_puntaje trivia_id participacion ahora db r db' :
  responder_pregunta trivia_id participacion ahora db = (Return r, db') →
  ∃ pregunta,
    head (filter (λ p, Pregunta.id p = ParticipacionCreate.pregunta_id participacion)
                 (preguntas db)) = Some pregunta
    ∧ Participacion.respuesta_dada r = ParticipacionCreate.respuesta_dada participacion
    ∧ (Participacion.es_correcta r = 1
       ↔ ParticipacionCreate.respuesta_dada participacion
         = Pregunta.respuesta_correcta pregunta)
    ∧ (Participacion.es_correcta r = 0
       ↔ ParticipacionCreate.respuesta_dada participacion
         ≠ Pregunta.respuesta_correcta pregunta)
    ∧ (Participacion.es_correcta r = 1 →
         (Pregunta.dificultad pregunta = "fácil" → Participacion.puntaje_obtenido r = 1)
         ∧ (Pregunta.dificultad pregunta = "medio" → Participacion.puntaje_obtenido r = 2)
         ∧ (Pregunta.dificultad pregunta = "difícil" → Participacion.puntaje_obtenido r = 3)
         ∧ (Pregunta.dificultad pregunta ∉ dificultades_validas →
              Participacion.puntaje_obtenido r = 0))
    ∧ (Participacion.es_correcta r = 0 → Participacion.puntaje_obtenido r = 0).
Proof.
  intros H. apply responder_pregunta_Return in H as (q & Hq & _ & -> & _).
  exists q. split; [done|]. simpl. case_decide as Heq.
  - repeat split; try done.
    + intros ->. by rewrite puntajes_facil.
    + intros ->. by rewrite puntajes_medio.
    + intros ->. by rewrite puntajes_dificil.
    + intros Hd. by rewrite puntajes_otra.
  - repeat split; try done.
Qed.

Lemma responder_pregunta_puntaje_witness :
  responder_pregunta 1 ej_respuesta 105 ej_db = (Return ej_participacion, ej_db')
  ∧ ∃ pregunta,
      head (filter (λ p, Pregunta.id p = 2) (preguntas ej_db)) = Some pregunta
      ∧ Participacion.respuesta_dada ej_participacion = "A"
      ∧ (Participacion.es_correcta ej_participacion = 1
         ↔ "A" = Pregunta.respuesta_correcta pregunta)
      ∧ (Participacion.es_correcta ej_participacion = 0
         ↔ "A" ≠ Pregunta.respuesta_correcta pregunta)
      ∧ (Participacion.es_correcta ej_participacion = 1 →
           (Pregunta.dificultad pregunta = "fácil"
            → Participacion.puntaje_obtenido ej_participacion = 1)
           ∧ (Pregunta.dificultad pregunta = "medio"
              → Participacion.puntaje_obtenido ej_participacion = 2)
           ∧ (Pregunta.dificultad pregunta = "difícil"
              → Participacion.puntaje_obtenido ej_participacion = 3)
           ∧ (Pregunta.dificultad pregunta ∉ dificultades_validas
              → Participacion.puntaje_obtenido ej_participacion = 0))
      ∧ (Participacion.es_correcta ej_participacion = 0
         → Participacion.puntaje_obtenido ej_participacion = 0).
Proof.
  split; [vm_compute; reflexivity|].
  apply (responder_pregunta_puntaje 1 ej_respuesta 105 ej_db ej_participacion ej_db').
  vm_compute; reflexivity.
Defined.

(** ** Validation order *)

Lemma responder_pregunta_validaciones trivia_id participacion ahora db :
  let usuario_id := ParticipacionCreate.usuario_id participacion in
  let pregunta_id := ParticipacionCreate.pregunta_id participacion in
  enlaza_trivia db trivia_id →
  enlaza_usuario db usuario_id →
  enlaza_pregunta db pregunta_id →
  (¬ existe_trivia db trivia_id →
     responder_pregunta trivia_id participacion ahora db
     = (Raise (error_trivia trivia_id), db))
  ∧ (existe_trivia db trivia_id →
     ¬ usuario_asignado db trivia_id usuario_id →
     responder_pregunta trivia_id participacion ahora db
     = (Raise error_no_asignado, db))
  ∧ (existe_trivia db trivia_id →
     usuario_asignado db trivia_id usuario_id →
     ¬ pregunta_en_trivia db trivia_id pregunta_id →
     responder_pregunta trivia_id participacion ahora db
     = (Raise error_no_pertenece, db))
  ∧ (existe_trivia db trivia_id →
     usuario_asignado db trivia_id usuario_id →
     pregunta_en_trivia db trivia_id pregunta_id →
     ya_respondida db usuario_id trivia_id pregunta_id →
     responder_pregunta trivia_id participacion ahora db
     = (Raise error_ya_respondida, db)).
Proof.
  intros usuario_id pregunta_id Het Heu Heq.
  assert (Ht : existe_trivia db trivia_id →
               is_Some (head (filter (λ t, Trivia.id t = trivia_id) (trivias db)))).
  { intros (t & ? & ?). apply first_is_Some. eauto. }
  assert (Hu : usuario_asignado db trivia_id usuario_id →
               is_Some (head (filter (λ a, TriviaUsuario.trivia_id a = trivia_id
                                           ∧ TriviaUsuario.usuario_id a = usuario_id)
                                     (trivia_usuarios db)))).
  { intros (a & ? & ? & ?). apply first_is_Some. eauto. }
  assert (Hq : pregunta_en_trivia db trivia_id pregunta_id →
               is_Some (head (filter (λ tp, TriviaPregunta.trivia_id tp = trivia_id
                                            ∧ TriviaPregunta.pregunta_id tp = pregunta_id)
                                     (trivia_preguntas db)))).
  { intros (tp & ? & ? & ?). apply first_is_Some. eauto. }
  assert (Hp : ya_respondida db usuario_id trivia_id pregunta_id →
               is_Some (head (filter (λ p, Participacion.usuario_id p = usuario_id
                                           ∧ Participacion.trivia_id p = trivia_id
                                           ∧ Participacion.pregunta_id p = pregunta_id)
                                     (participaciones db)))).
  { intros (p & ? & ? & ? & ?). apply first_is_Some. eauto 6. }
  unfold responder_pregunta. fold usuario_id pregunta_id.
  rewrite (decide_False (P := ¬ enlaza_trivia db trivia_id)) by tauto.
  rewrite (decide_False (P := ¬ enlaza_usuario db usuario_id)) by tauto.
  rewrite (decide_False (P := ¬ enlaza_pregunta db pregunta_id)) by tauto.
  repeat split.
  - intros Hno.
    destruct (head (filter _ (trivias db))) as [t|] eqn:E; [|done].
    apply first_Some in E as [? ?]. destruct Hno. by exists t.
  - intros [t ->]%Ht Hno.
    destruct (head (filter _ (trivia_usuarios db))) as [a|] eqn:E; [|done].
    apply first_Some in E as (? & ? & ?). destruct Hno. by exists a.
  - intros [t ->]%Ht [a ->]%Hu Hno.
    destruct (head (filter _ (trivia_preguntas db))) as [tp|] eqn:E; [|done].
    apply first_Some in E as (? & ? & ?). destruct Hno. by exists tp.
  - by intros [t ->]%Ht [a ->]%Hu [tp ->]%Hq [p ->]%Hp.
Qed.

(** C2, as stated, fails: for a user id that does not fit in an SQLite
    INTEGER the second query raises [OverflowError] before the assignment
    can be missed, so the submission of an unassigned user to an existing
    trivia is not always answered with the 403. *)
Lemma responder_pregunta_orden_desborda :
  ¬ (∀ trivia_id participacion ahora db,
       existe_trivia db trivia_id →
       ¬ usuario_asignado db trivia_id (ParticipacionCreate.usuario_id participacion) →
       responder_pregunta trivia_id participacion ahora db
       = (Raise error_no_asignado, db)).
Proof.
  intros H.
  specialize (H 1 (ParticipacionCreate.Build 9223372036854775808 1 1 "A") 105 ej_db).
  assert (H1 : existe_trivia ej_db 1).
  { apply (first_is_Some (λ t, Trivia.id t = 1)). vm_compute. by eexists. }
  assert (H2 : ¬ usuario_asignado ej_db 1 9223372036854775808).
  { intros Ha.
    apply (first_is_Some (λ a, TriviaUsuario.trivia_id a = 1
                               ∧ TriviaUsuario.usuario_id a = 9223372036854775808)) in Ha.
    vm_compute in Ha. by destruct Ha. }
  specialize (H H1 H2). vm_compute in H. discriminate H.
Qed.

(** C2, amended: for a submission whose trivia, user and question ids fit
    in a signed 64-bit integer, [responder_pregunta] checks, in this order,
    that the trivia exists (404), that the user is assigned to it (403),
    that the question belongs to it (400, "La pregunta no pertenece a esta
    trivia") and that the user has not answered it yet (400, "Ya has
    respondido esta pregunta"); the error raised is that of the first check
    that fails, whatever the later ones would say, the four errors are
    pairwise different and the database is left as it was. *)
Theorem responder_pregunta_orden trivia_id participacion ahora db :
  let usuario_id := ParticipacionCreate.usuario_id participacion in
  let pregunta_id := ParticipacionCreate.pregunta_id participacion in
  cabe trivia_id → cabe usuario_id → cabe pregunta_id →
  (¬ existe_trivia db trivia_id →
     responder_pregunta trivia_id participacion ahora db
     = (Raise (error_trivia trivia_id), db))
  ∧ (existe_trivia db trivia_id →
     ¬ usuario_asignado db trivia_id usuario_id →
     responder_pregunta trivia_id participacion ahora db
     = (Raise error_no_asignado, db))
  ∧ (existe_trivia db trivia_id →
     usuario_asignado db trivia_id usuario_id →
     ¬ pregunta_en_trivia db trivia_id pregunta_id →
     responder_pregunta trivia_id participacion ahora db
     = (Raise error_no_pertenece, db))
  ∧ (existe_trivia db trivia_id →
     usuario_asignado db trivia_id usuario_id →
     pregunta_en_trivia db trivia_id pregunta_id →
     ya_respondida db usuario_id trivia_id pregunta_id →
     responder_pregunta trivia_id participacion ahora db
     = (Raise error_ya_respondida, db))
  ∧ NoDup [error_trivia trivia_id; error_no_asignado;
           error_no_pertenece; error_ya_respondida].
Proof.
  intros usuario_id pregunta_id Ht Hu Hq.
  destruct (responder_pregunta_validaciones trivia_id participacion ahora db)
    as (H1 & H2 & H3 & H4); [by left..|].
  do 4 (split; [assumption|]).
  unfold error_trivia, error_no_asignado, error_no_pertenece, error_ya_respondida,
    HTTP_404_NOT_FOUND, HTTP_403_FORBIDDEN, HTTP_400_BAD_REQUEST.
  repeat (apply NoDup_cons_2; [|try apply NoDup_nil_2]);
    intros Hin;
    repeat (apply elem_of_cons in Hin as [Hin|Hin]; [discriminate Hin|]);
    by apply elem_of_nil in Hin.
Qed.

Lemma responder_pregunta_orden_witness :
  cabe 1 ∧ cabe 2
  ∧ existe_trivia ej_db 1
  ∧ usuario_asignado ej_db 1 2
  ∧ pregunta_en_trivia ej_db 1 1
  ∧ ya_respondida ej_db 2 1 1
  ∧ responder_pregunta 1 (ParticipacionCreate.Build 2 1 1 "A") 105 ej_db
    = (Raise error_ya_respondida, ej_db).
Proof.
  assert (C1 : cabe 1) by decidir.
  assert (C2 : cabe 2) by decidir.
  assert (H1 : existe_trivia ej_db 1).
  { apply (first_is_Some (λ t, Trivia.id t = 1)). vm_compute. by eexists. }
  assert (H2 : usuario_asignado ej_db 1 2).
  { apply (first_is_Some (λ a, TriviaUsuario.trivia_id a = 1
                               ∧ TriviaUsuario.usuario_id a = 2)).
    vm_compute. by eexists. }
  assert (H3 : pregunta_en_trivia ej_db 1 1).
  { apply (first_is_Some (λ tp, TriviaPregunta.trivia_id tp = 1
                                ∧ TriviaPregunta.pregunta_id tp = 1)).
    vm_compute. by eexists. }
  assert (H4 : ya_respondida ej_db 2 1 1).
  { apply (first_is_Some (λ p, Participacion.usuario_id p = 2
                               ∧ Participacion.trivia_id p = 1
                               ∧ Participacion.pregunta_id p = 1)).
    vm_compute. by eexists. }
  split; [exact C1|]. split; [exact C2|].
  split; [exact H1|]. split; [exact H2|]. split; [exact H3|]. split; [exact H4|].
  by apply (responder_pregunta_orden 1 (ParticipacionCreate.Build 2 1 1 "A") 105 ej_db
              C1 C2 C1).
Defined.

(** ** The [trivia_id] of the request body *)

(** C10: [responder_pregunta] never reads [participacion.trivia_id]: two
    submissions that differ only there get the same result (same error, or
    the same stored row) and leave the same database; the row that is stored
    carries the [trivia_id] of the path. *)
Theorem responder_pregunta_ignora_trivia_id_del_cuerpo
    trivia_id usuario_id pregunta_id respuesta_dada cuerpo1 cuerpo2 ahora db :
  let p1 := ParticipacionCreate.Build usuario_id cuerpo1 pregunta_id respuesta_dada in
  let p2 := ParticipacionCreate.Build usuario_id cuerpo2 pregunta_id respuesta_dada in
  responder_pregunta trivia_id p1 ahora db = responder_pregunta trivia_id p2 ahora db
  ∧ ∀ r db', responder_pregunta trivia_id p1 ahora db = (Return r, db') →
      Participacion.trivia_id r = trivia_id
      ∧ participaciones db' = participaciones db ++ [r].
Proof.
  intros p1 p2. split; [reflexivity|].
  intros r db' H. apply responder_pregunta_Return in H as (q & _ & _ & Hr & ->).
  split; [by rewrite Hr|done].
Qed.

Lemma responder_pregunta_ignora_trivia_id_del_cuerpo_witness :
  responder_pregunta 1 (ParticipacionCreate.Build 2 1 2 "A") 105 ej_db
  = responder_pregunta 1 (ParticipacionCreate.Build 2 99 2 "A") 105 ej_db
  ∧ Participacion.trivia_id ej_participacion = 1
  ∧ participaciones ej_db' = participaciones ej_db ++ [ej_participacion].
Proof.
  destruct (responder_pregunta_ignora_trivia_id_del_cuerpo 1 2 2 "A" 1 99 105 ej_db)
    as [Heq Hrow].
  split; [exact Heq|].
  apply Hrow. vm_compute. reflexivity.
Defined.

(** ** Score of one user *)

Lemma sum_foldr (l : list Z) : sum l = foldr Z.add 0 l.
Proof.
  unfold sum.
  assert (H : ∀ a, foldl Z.add a l = a + foldr Z.add 0 l).
  { induction l as [|x l IH]; intros a; simpl; [lia|]. rewrite IH. lia. }
  rewrite H. lia.
Qed.

Lemma sum_unos {A} (l : list A) : sum ((λ _, 1) <$> l) = len l.
Proof.
  rewrite sum_foldr. unfold len. induction l as [|x l IH]; [reflexivity|].
  change (1 + foldr Z.add 0 ((λ _, 1) <$> l) = Z.of_nat (S (length l))).
  rewrite IH. lia.
Qed.

(** C8, as stated, fails: [obtener_puntaje_usuario] raises
    [OverflowError] for a trivia id that does not fit in an SQLite
    INTEGER. *)
Lemma obtener_puntaje_usuario_desborda :
  ¬ (∀ trivia_id usuario_id db,
       ∃ r, obtener_puntaje_usuario trivia_id usuario_id db = Return r).
Proof.
  intros H. destruct (H 9223372036854775808 1 ej_db) as [r Hr].
  vm_compute in Hr. discriminate Hr.
Qed.

(** C8, amended: for every pair of ids that fit in a signed 64-bit
    integer, whether or not they name a trivia, a user or an assignment,
    [obtener_puntaje_usuario] returns; its totals are taken over the
    participations of that user in that trivia (points summed, rows
    counted, rows with [es_correcta = 1] counted) and are all 0 when there
    is no such participation. *)
Theorem obtener_puntaje_usuario_total trivia_id usuario_id db :
  cabe trivia_id → cabe usuario_id →
  let filas :=
    filter (λ p, Participacion.trivia_id p = trivia_id
                 ∧ Participacion.usuario_id p = usuario_id) (participaciones db) in
  ∃ r, obtener_puntaje_usuario trivia_id usuario_id db = Return r
    ∧ Puntaje.usuario_id r = usuario_id
    ∧ Puntaje.trivia_id r = trivia_id
    ∧ Puntaje.puntaje_total r = foldr Z.add 0 (Participacion.puntaje_obtenido <$> filas)
    ∧ Puntaje.total_respuestas r = Z.of_nat (length filas)
    ∧ Puntaje.respuestas_correctas r
      = Z.of_nat (length (filter (λ p, Participacion.es_correcta p = 1) filas))
    ∧ ((∀ p, p ∈ participaciones db →
          ¬ (Participacion.trivia_id p = trivia_id
             ∧ Participacion.usuario_id p = usuario_id)) →
       r = Puntaje.Build usuario_id trivia_id 0 0 0).
Proof.
  intros Ht Hu filas. unfold obtener_puntaje_usuario.
  rewrite decide_False by (intros Hn; apply Hn; split; by left).
  eexists. split; [reflexivity|]. simpl. fold filas.
  rewrite sum_foldr, sum_unos. repeat split; try reflexivity.
  intros Hno.
  apply (first_None (λ p, Participacion.trivia_id p = trivia_id
                          ∧ Participacion.usuario_id p = usuario_id)) in Hno.
  apply head_None in Hno. fold filas in Hno. by rewrite Hno.
Qed.

Lemma obtener_puntaje_usuario_total_witness :
  cabe 7 ∧ cabe 9
  ∧ (∀ p, p ∈ participaciones ej_db →
       ¬ (Participacion.trivia_id p = 7 ∧ Participacion.usuario_id p = 9))
  ∧ obtener_puntaje_usuario 7 9 ej_db = Return (Puntaje.Build 9 7 0 0 0).
Proof.
  assert (C7 : cabe 7) by decidir.
  assert (C9 : cabe 9) by decidir.
  assert (Hno : ∀ p, p ∈ participaciones ej_db →
                  ¬ (Participacion.trivia_id p = 7 ∧ Participacion.usuario_id p = 9)).
  { apply (first_None (λ p, Participacion.trivia_id p = 7
                            ∧ Participacion.usuario_id p = 9)).
    vm_compute. reflexivity. }
  split; [exact C7|]. split; [exact C9|]. split; [exact Hno|].
  destruct (obtener_puntaje_usuario_total 7 9 ej_db C7 C9)
    as (r & -> & _ & _ & _ & _ & _ & Hr).
  by rewrite (Hr Hno).
Defined.

(** ** Generated primary keys *)

Lemma nuevo_id_cota (ids : list Z) (x : Z) : x ∈ ids → x < nuevo_id ids.
Proof.
  unfold nuevo_id. induction 1 as [x ids|x y ids _ IH]; simpl; lia.
Qed.

Lemma nuevo_id_fresco (ids : list Z) : nuevo_id ids ∉ ids.
Proof. intros H%nuevo_id_cota. lia. Qed.

(** ** Registration *)

(** C7, as stated, fails: registering an email that is already taken is
    not answered with a 409 Conflict. *)
Lemma crear_usuario_no_conflict :
  ¬ (∀ usuario db,
       email_registrado db (UsuarioCreate.email usuario) →
       ∃ detail,
         (crear_usuario usuario db).1 = Raise (HTTPException HTTP_409_CONFLICT detail)).
Proof.
  intros H.
  destruct (H (UsuarioCreate.Build "Otra Ana" "ana@tala.cl") ej_db) as [detail Hd].
  - apply (first_is_Some (λ u, Usuario.email u = "ana@tala.cl")).
    vm_compute. by eexists.
  - vm_compute in Hd. discriminate Hd.
Qed.

(** C7, amended: registering an email that is already taken raises the 400
    "El email ya está registrado" and leaves the database as it was; any
    other registration succeeds, appends one user carrying the submitted
    name and email, and returns it with a generated id that no earlier user
    has. *)
Theorem crear_usuario_email usuario db :
  (email_registrado db (UsuarioCreate.email usuario) →
     crear_usuario usuario db
     = (Raise (HTTPException HTTP_400_BAD_REQUEST "El email ya está registrado"), db))
  ∧ (¬ email_registrado db (UsuarioCreate.email usuario) →
     ∃ nuevo db',
       crear_usuario usuario db = (Return nuevo, db')
       ∧ Usuario.nombre nuevo = UsuarioCreate.nombre usuario
       ∧ Usuario.email nuevo = UsuarioCreate.email usuario
       ∧ (Usuario.id nuevo ∉ (Usuario.id <$> usuarios db))
       ∧ usuarios db' = usuarios db ++ [nuevo]
       ∧ preguntas db' = preguntas db
       ∧ trivias db' = trivias db
       ∧ trivia_preguntas db' = trivia_preguntas db
       ∧ trivia_usuarios db' = trivia_usuarios db
       ∧ participaciones db' = participaciones db).
Proof.
  unfold crear_usuario, email_registrado. split.
  - intros Hu.
    apply (first_is_Some (λ u, Usuario.email u = UsuarioCreate.email usuario)) in Hu
      as [u ->].
    reflexivity.
  - intros Hno.
    destruct (head (filter _ (usuarios db))) as [u|] eqn:E.
    + apply first_Some in E as [? ?]. destruct Hno. by exists u.
    + simpl. do 2 eexists. split; [reflexivity|]. simpl.
      repeat split; try reflexivity. apply nuevo_id_fresco.
Qed.

Lemma crear_usuario_email_witness :
  email_registrado ej_db "ana@tala.cl"
  ∧ crear_usuario (UsuarioCreate.Build "Otra Ana" "ana@tala.cl") ej_db
    = (Raise (HTTPException HTTP_400_BAD_REQUEST "El email ya está registrado"), ej_db).
Proof.
  assert (H : email_registrado ej_db "ana@tala.cl").
  { apply (first_is_Some (λ u, Usuario.email u = "ana@tala.cl")).
    vm_compute. by eexists. }
  split; [exact H|].
  by apply (crear_usuario_email (UsuarioCreate.Build "Otra Ana" "ana@tala.cl") ej_db).
Defined.

(** ** Creating a trivia: [Model.id.in_(ids)] against [len(ids)] *)

Section in_.
Context {A : Type} (key : A → Z).

Lemma in_submseteq (rows : list A) (ids : list Z) :
  NoDup (key <$> rows) →
  key <$> filter (λ r, key r ∈ ids) rows ⊆+ ids.
Proof.
  intros Hpk. apply NoDup_submseteq.
  - eapply sublist_NoDup; [exact Hpk|]. apply fmap_sublist, sublist_filter.
  - intros i (r & -> & Hr)%list_elem_of_fmap.
    by apply list_elem_of_filter in Hr as [? _].
Qed.

(** The two lengths agree only if [ids] has no repetition and each of its
    members is the key of a row. *)
Lemma in_len (rows : list A) (ids : list Z) :
  NoDup (key <$> rows) →
  len (filter (λ r, key r ∈ ids) rows) = len ids →
  NoDup ids ∧ ∀ i, i ∈ ids → i ∈ key <$> rows.
Proof.
  intros Hpk Hlen. pose proof (in_submseteq rows ids Hpk) as Hsub.
  assert (Hperm : key <$> filter (λ r, key r ∈ ids) rows ≡ₚ ids).
  { apply submseteq_length_Permutation; [done|].
    rewrite length_fmap. unfold len in Hlen. lia. }
  split.
  - rewrite <- Hperm. eapply sublist_NoDup; [exact Hpk|].
    apply fmap_sublist, sublist_filter.
  - intros i Hi. rewrite <- Hperm in Hi.
    apply list_elem_of_fmap in Hi as (r & -> & Hr).
    apply list_elem_of_filter in Hr as [_ Hr]. by apply list_elem_of_fmap_2.
Qed.

End in_.








(** ** The player's view *)

(** The loop of [ver_trivia_jugador] as a partial map over the links. *)
Lemma preguntas_jugador_omap (qs : list Pregunta.t) (tps : list TriviaPregunta.t)
    (acc : list PreguntaJugador.t) :
  foldl (λ preguntas_jugador tp,
           match head (filter (λ p, Pregunta.id p = TriviaPregunta.pregunta_id tp) qs) with
           | Some pregunta =>
               preguntas_jugador ++
               [PreguntaJugador.Build (Pregunta.id pregunta)
                                      (Pregunta.texto_pregunta pregunta)
                                      (Pregunta.opciones pregunta)]
           | None => preguntas_jugador
           end) acc tps
  = acc ++ omap (λ tp, vista_jugador <$>
                         head (filter (λ p, Pregunta.id p = TriviaPregunta.pregunta_id tp) qs))
                tps.
Proof.
  revert acc. induction tps as [|tp tps IH]; intros acc; simpl.
  - by rewrite app_nil_r.
  - rewrite IH. destruct (head _) as [q|]; simpl; [|done].
    by rewrite <- app_assoc.
Qed.

(** With unique primary keys, [first()] finds the row that has the key. *)
Lemma first_pk {A} (key : A → Z) (rows : list A) (x : A) :
  NoDup (key <$> rows) → x ∈ rows →
  head (filter (λ r, key r = key x) rows) = Some x.
Proof.
  intros Hpk Hx. induction rows as [|y rows IH]; [by apply elem_of_nil in Hx|].
  rewrite fmap_cons in Hpk. apply NoDup_cons in Hpk as [Hy Hpk].
  rewrite filter_cons. apply elem_of_cons in Hx as [->|Hx].
  - by rewrite decide_True.
  - rewrite decide_False; [by apply IH|].
    intros Heq. apply Hy. rewrite Heq. by apply list_elem_of_fmap_2.
Qed.

(** [first()] by id sees of a question what the player's view keeps when the
    tables agree on that view. *)
Lemma first_vista_jugador (qs1 qs2 : list Pregunta.t) (k : Z) :
  vista_jugador <$> qs1 = vista_jugador <$> qs2 →
  vista_jugador <$> head (filter (λ p, Pregunta.id p = k) qs1)
  = vista_jugador <$> head (filter (λ p, Pregunta.id p = k) qs2).
Proof.
  revert qs2. induction qs1 as [|q1 qs1 IH]; intros [|q2 qs2] Heq;
    try discriminate Heq; [done|].
  rewrite !fmap_cons in Heq.
  assert (Hq : vista_jugador q1 = vista_jugador q2) by congruence.
  assert (Hqs : vista_jugador <$> qs1 = vista_jugador <$> qs2) by congruence.
  assert (Hid : Pregunta.id q1 = Pregunta.id q2).
  { change (PreguntaJugador.id (vista_jugador q1) = PreguntaJugador.id (vista_jugador q2)).
    by rewrite Hq. }
  rewrite !filter_cons. cbn beta. rewrite Hid.
  case_decide; simpl; [by rewrite Hq|by apply IH].
Qed.

(** C5, as stated, fails: for a user id that does not fit in an SQLite
    INTEGER the first query raises [OverflowError], so a user who is not
    assigned is not always answered with the 404. *)
Lemma ver_trivia_jugador_desborda :
  ¬ (∀ trivia_id usuario_id db,
       ¬ usuario_asignado db trivia_id usuario_id →
       ver_trivia_jugador trivia_id usuario_id db
       = Raise (HTTPException HTTP_404_NOT_FOUND
                  "El usuario no está asignado a esta trivia")).
Proof.
  intros H. specialize (H 1 9223372036854775808 ej_db).
  assert (Hno : ¬ usuario_asignado ej_db 1 9223372036854775808).
  { intros Ha.
    apply (first_is_Some (λ a, TriviaUsuario.trivia_id a = 1
                               ∧ TriviaUsuario.usuario_id a = 9223372036854775808)) in Ha.
    vm_compute in Ha. by destruct Ha. }
  specialize (H Hno). vm_compute in H. discriminate H.
Qed.

(** C5, amended: for a trivia id and a user id that fit in a signed 64-bit
    integer, [ver_trivia_jugador] raises a 404 when the user is not assigned
    to the trivia; otherwise it returns a list of [PreguntaJugador], records
    of an id, a text and the options only, holding exactly the views of the
    questions linked to the trivia; and the response is the same for any
    other database that differs only in the [respuesta_correcta] and
    [dificultad] of its questions.  Primary keys are unique in
    [preguntas]. *)
Theorem ver_trivia_jugador_oculta trivia_id usuario_id db :
  NoDup (Pregunta.id <$> preguntas db) →
  cabe trivia_id → cabe usuario_id →
  (¬ usuario_asignado db trivia_id usuario_id →
     ver_trivia_jugador trivia_id usuario_id db
     = Raise (HTTPException HTTP_404_NOT_FOUND "El usuario no está asignado a esta trivia"))
  ∧ (usuario_asignado db trivia_id usuario_id →
     ∃ preguntas_jugador,
       ver_trivia_jugador trivia_id usuario_id db = Return preguntas_jugador
       ∧ ∀ pj, pj ∈ preguntas_jugador ↔
               ∃ pregunta, pregunta ∈ preguntas db
                 ∧ pregunta_en_trivia db trivia_id (Pregunta.id pregunta)
                 ∧ pj = PreguntaJugador.Build (Pregunta.id pregunta)
                                              (Pregunta.texto_pregunta pregunta)
                                              (Pregunta.opciones pregunta))
  ∧ (∀ db2,
       trivia_usuarios db2 = trivia_usuarios db →
       trivia_preguntas db2 = trivia_preguntas db →
       vista_jugador <$> preguntas db2 = vista_jugador <$> preguntas db →
       ver_trivia_jugador trivia_id usuario_id db2
       = ver_trivia_jugador trivia_id usuario_id db).
Proof.
  intros Hpk Hct Hcu. unfold ver_trivia_jugador.
  rewrite decide_False by (intros Hn; apply Hn; split; by left).
  repeat split.
  - intros Hno.
    destruct (head (filter _ (trivia_usuarios db))) as [a|] eqn:E; [|done].
    apply first_Some in E as (? & ? & ?). destruct Hno. by exists a.
  - intros Hu.
    apply (first_is_Some (λ a, TriviaUsuario.trivia_id a = trivia_id
                               ∧ TriviaUsuario.usuario_id a = usuario_id)) in Hu
      as [a ->].
    eexists. split; [reflexivity|]. intros pj.
    rewrite preguntas_jugador_omap, app_nil_l, list_elem_of_omap. split.
    + intros (tp & [Htid Htp]%list_elem_of_filter & Hpj).
      destruct (head (filter _ (preguntas db))) as [q|] eqn:E; [|discriminate Hpj].
      apply first_Some in E as [Hq Hid]. injection Hpj as <-.
      exists q. split; [done|]. split; [|done]. by exists tp.
    + intros (q & Hq & (tp & Htp & Htid & Hid) & ->).
      exists tp. split; [by apply list_elem_of_filter|].
      rewrite Hid, (first_pk Pregunta.id); done.
  - intros db2 -> -> Hvista.
    rewrite decide_False by (intros Hn; apply Hn; split; by left).
    destruct (head (filter _ (trivia_usuarios db))); [|done].
    f_equal. rewrite !preguntas_jugador_omap. f_equal.
    apply list_omap_ext, Forall_Forall2_diag, Forall_forall.
    intros tp _. by apply first_vista_jugador.
Qed.

Lemma ver_trivia_jugador_oculta_witness :
  NoDup (Pregunta.id <$> preguntas ej_db)
  ∧ cabe 1 ∧ cabe 2
  ∧ usuario_asignado ej_db 1 2
  ∧ ∃ preguntas_jugador,
      ver_trivia_jugador 1 2 ej_db = Return preguntas_jugador
      ∧ ∀ pj, pj ∈ preguntas_jugador ↔
              ∃ pregunta, pregunta ∈ preguntas ej_db
                ∧ pregunta_en_trivia ej_db 1 (Pregunta.id pregunta)
                ∧ pj = PreguntaJugador.Build (Pregunta.id pregunta)
                                             (Pregunta.texto_pregunta pregunta)
                                             (Pregunta.opciones pregunta).
Proof.
  assert (Hpk : NoDup (Pregunta.id <$> preguntas ej_db)) by decidir.
  assert (C1 : cabe 1) by decidir.
  assert (C2 : cabe 2) by decidir.
  assert (Hu : usuario_asignado ej_db 1 2).
  { apply (first_is_Some (λ a, TriviaUsuario.trivia_id a = 1
                               ∧ TriviaUsuario.usuario_id a = 2)).
    vm_compute. by eexists. }
  split; [exact Hpk|]. split; [exact C1|]. split; [exact C2|]. split; [exact Hu|].
  by apply (ver_trivia_jugador_oculta 1 2 ej_db Hpk C1 C2).
Defined.

(** ** What a successful [crear_trivia] stores *)

Lemma foldl_add_trivia_pregunta (trivia_id : Z) (ids : list Z) (db : Session) :
  let db' := foldl (λ db pregunta_id,
                      add_trivia_pregunta
                        (λ id, TriviaPregunta.Build id trivia_id pregunta_id) db) db ids in
  usuarios db' = usuarios db ∧ preguntas db' = preguntas db ∧ trivias db' = trivias db
  ∧ trivia_usuarios db' = trivia_usuarios db ∧ participaciones db' = participaciones db
  ∧ ∃ filas, trivia_preguntas db' = trivia_preguntas db ++ filas
      ∧ (λ tp, (TriviaPregunta.trivia_id tp, TriviaPregunta.pregunta_id tp)) <$> filas
        = (λ i, (trivia_id, i)) <$> ids.
Proof.
  revert db. induction ids as [|i ids IH]; intros db; simpl.
  - repeat split. exists []. by rewrite app_nil_r.
  - destruct (IH (add_trivia_pregunta (λ id, TriviaPregunta.Build id trivia_id i) db))
      as (-> & -> & -> & -> & -> & filas & -> & Hfilas).
    repeat split. eexists (_ :: filas). simpl. rewrite <- app_assoc. split; [done|].
    f_equal. exact Hfilas.
Qed.

Lemma foldl_add_trivia_usuario (trivia_id : Z) (ids : list Z) (db : Session) :
  let db' := foldl (λ db usuario_id,
                      add_trivia_usuario
                        (λ id, TriviaUsuario.Build id trivia_id usuario_id) db) db ids in
  usuarios db' = usuarios db ∧ preguntas db' = preguntas db ∧ trivias db' = trivias db
  ∧ trivia_preguntas db' = trivia_preguntas db ∧ participaciones db' = participaciones db
  ∧ ∃ filas, trivia_usuarios db' = trivia_usuarios db ++ filas
      ∧ (λ a, (TriviaUsuario.trivia_id a, TriviaUsuario.usuario_id a)) <$> filas
        = (λ i, (trivia_id, i)) <$> ids.
Proof.
  revert db. induction ids as [|i ids IH]; intros db; simpl.
  - repeat split. exists []. by rewrite app_nil_r.
  - destruct (IH (add_trivia_usuario (λ id, TriviaUsuario.Build id trivia_id i) db))
      as (-> & -> & -> & -> & -> & filas & -> & Hfilas).
    repeat split. eexists (_ :: filas). simpl. rewrite <- app_assoc. split; [done|].
    f_equal. exact Hfilas.
Qed.

Lemma crear_trivia_Return trivia ahora db t db' :
  crear_trivia trivia ahora db = (Return t, db') →
  len (filter (λ p, Pregunta.id p ∈ TriviaCreate.pregunta_ids trivia) (preguntas db))
    = len (TriviaCreate.pregunta_ids trivia)
  ∧ len (filter (λ u, Usuario.id u ∈ TriviaCreate.usuario_ids trivia) (usuarios db))
    = len (TriviaCreate.usuario_ids trivia)
  ∧ t = Trivia.Build (nuevo_id (Trivia.id <$> trivias db)) (TriviaCreate.nombre trivia)
                     (TriviaCreate.descripcion trivia) ahora
  ∧ usuarios db' = usuarios db
  ∧ preguntas db' = preguntas db
  ∧ trivias db' = trivias db ++ [t]
  ∧ participaciones db' = participaciones db
  ∧ (∃ filas, trivia_preguntas db' = trivia_preguntas db ++ filas
       ∧ (λ tp, (TriviaPregunta.trivia_id tp, TriviaPregunta.pregunta_id tp)) <$> filas
         = (λ i, (Trivia.id t, i)) <$> TriviaCreate.pregunta_ids trivia)
  ∧ (∃ filas, trivia_usuarios db' = trivia_usuarios db ++ filas
       ∧ (λ a, (TriviaUsuario.trivia_id a, TriviaUsuario.usuario_id a)) <$> filas
         = (λ i, (Trivia.id t, i)) <$> TriviaCreate.usuario_ids trivia).
Proof.
  unfold crear_trivia. intros H.
  case_decide as Hoq; [discriminate H|]. case_decide as Hq; [discriminate H|].
  case_decide as Hou; [discriminate H|]. case_decide as Hu; [discriminate H|].
  simpl in H. injection H as <- <-.
  split; [done|]. split; [done|]. split; [done|].
  match goal with
  | |- context [foldl ?f (foldl ?g ?db0 ?qs) ?us] =>
      destruct (foldl_add_trivia_usuario
                  (nuevo_id (Trivia.id <$> trivias db)) us (foldl g db0 qs))
        as (Hu1 & Hu2 & Hu3 & Hu4 & Hu5 & filas_u & Hu6 & Hu7);
      destruct (foldl_add_trivia_pregunta
                  (nuevo_id (Trivia.id <$> trivias db)) qs db0)
        as (Hq1 & Hq2 & Hq3 & Hq4 & Hq5 & filas_q & Hq6 & Hq7)
  end.
  simpl in *.
  rewrite Hu1, Hu2, Hu3, Hu4, Hu5, Hu6, Hq1, Hq2, Hq3, Hq4, Hq5, Hq6.
  repeat split; eauto.
Qed.

(** ** Integrity is kept by every request *)

Lemma NoDup_nuevo_id (ids : list Z) : NoDup ids → NoDup (ids ++ [nuevo_id ids]).
Proof.
  intros Hids. apply NoDup_app. split; [done|]. split; [|apply NoDup_singleton].
  intros x Hx ->%list_elem_of_singleton. by apply nuevo_id_fresco in Hx.
Qed.

Lemma crear_trivia_Raise trivia ahora db e db' :
  crear_trivia trivia ahora db = (Raise e, db') → db' = db.
Proof.
  unfold crear_trivia. intros H.
  repeat case_decide; simpl in H; congruence.
Qed.

Lemma responder_pregunta_Raise trivia_id participacion ahora db e db' :
  responder_pregunta trivia_id participacion ahora db = (Raise e, db') → db' = db.
Proof.
  unfold responder_pregunta. intros H.
  repeat match type of H with
         | context [decide (¬ enlaza_trivia ?d ?n)] =>
             destruct (decide (¬ enlaza_trivia d n))
         | context [decide (¬ enlaza_usuario ?d ?n)] =>
             destruct (decide (¬ enlaza_usuario d n))
         | context [decide (¬ enlaza_pregunta ?d ?n)] =>
             destruct (decide (¬ enlaza_pregunta d n))
         | context [match head ?l with _ => _ end] => destruct (head l)
         end; simpl in H; congruence.
Qed.

Lemma consistente_vacia : consistente db_vacia.
Proof.
  split; simpl; try apply NoDup_nil_2; intros x Hx; by apply elem_of_nil in Hx.
Qed.

Lemma crear_usuario_consistente usuario db :
  consistente db → consistente (crear_usuario usuario db).2.
Proof.
  intros [Hu Hq Ht Hfq Hfu Hnu Hnp]. unfold crear_usuario.
  destruct (head _); [done|].
  split; simpl; try done.
  - rewrite fmap_app. by apply NoDup_nuevo_id.
  - intros a Ha. rewrite fmap_app, elem_of_app. destruct (Hfu a Ha). auto.
Qed.

Lemma crear_pregunta_consistente pregunta db :
  consistente db → consistente (crear_pregunta pregunta db).2.
Proof.
  intros [Hu Hq Ht Hfq Hfu Hnu Hnp]. unfold crear_pregunta.
  repeat case_decide; try done.
  split; simpl; try done.
  - rewrite fmap_app. by apply NoDup_nuevo_id.
  - intros tp Htp. rewrite fmap_app, elem_of_app. destruct (Hfq tp Htp). auto.
Qed.

Lemma crear_trivia_consistente trivia ahora db :
  consistente db → consistente (crear_trivia trivia ahora db).2.
Proof.
  intros Hc. destruct (crear_trivia trivia ahora db) as [[t|e] db'] eqn:E; simpl;
    [|by apply crear_trivia_Raise in E as ->].
  destruct Hc as [Hpku Hpkq Hpkt Hfkq Hfku Hnu Hnp].
  apply crear_trivia_Return in E
    as (Hlq & Hlu & Ht & Hus & Hqs & Hts & Hps & (fq & Htq & Hfq) & (fu & Htu & Hfu)).
  apply (in_len Pregunta.id) in Hlq as [Hq_nd Hq_in]; [|done].
  apply (in_len Usuario.id) in Hlu as [Hu_nd Hu_in]; [|done].
  assert (Hid : Trivia.id t = nuevo_id (Trivia.id <$> trivias db)) by by rewrite Ht.
  split; rewrite ?Hus, ?Hqs, ?Hts, ?Hps, ?Htq, ?Htu; try done.
  - rewrite fmap_app. simpl. rewrite Hid. by apply NoDup_nuevo_id.
  - intros tp [Htp|Htp]%elem_of_app; rewrite fmap_app, elem_of_app.
    + destruct (Hfkq tp Htp). auto.
    + apply (list_elem_of_fmap_2
               (λ tp, (TriviaPregunta.trivia_id tp, TriviaPregunta.pregunta_id tp))) in Htp.
      rewrite Hfq in Htp. apply list_elem_of_fmap in Htp as (i & [= -> ->] & Hi).
      split; [right; apply list_elem_of_singleton; done|auto].
  - intros a [Ha|Ha]%elem_of_app; rewrite fmap_app, elem_of_app.
    + destruct (Hfku a Ha). auto.
    + apply (list_elem_of_fmap_2
               (λ a, (TriviaUsuario.trivia_id a, TriviaUsuario.usuario_id a))) in Ha.
      rewrite Hfu in Ha. apply list_elem_of_fmap in Ha as (i & [= -> ->] & Hi).
      split; [right; apply list_elem_of_singleton; done|auto].
  - rewrite fmap_app, Hfu. apply NoDup_app. split; [done|]. split.
    + intros [tid uid] (a & [= -> ->] & Ha)%list_elem_of_fmap
             (i & [= Htid _] & _)%list_elem_of_fmap.
      destruct (Hfku a Ha) as [Hin _].
      rewrite Htid, Hid in Hin. by apply nuevo_id_fresco in Hin.
    + apply NoDup_fmap_2; [|done]. by intros i j [= ->].
Qed.

Lemma responder_pregunta_consistente trivia_id participacion ahora db :
  consistente db → consistente (responder_pregunta trivia_id participacion ahora db).2.
Proof.
  intros Hc.
  destruct (responder_pregunta trivia_id participacion ahora db) as [[r|e] db'] eqn:E;
    simpl; [|by apply responder_pregunta_Raise in E as ->].
  destruct Hc as [Hu Hq Ht Hfkq Hfku Hnu Hnp].
  apply responder_pregunta_Return in E as (q & _ & Hno & Hr & ->).
  split; simpl; try done.
  rewrite fmap_app. apply NoDup_app. split; [done|]. split; [|apply NoDup_singleton].
  intros x (p & -> & Hp)%list_elem_of_fmap Hx%list_elem_of_singleton.
  rewrite Hr in Hx. simpl in Hx. injection Hx as H1 H2 H3.
  eapply (first_None _ (participaciones db)); [exact Hno|exact Hp|]. done.
Qed.

Lemma atender_consistente r db : consistente db → consistente (atender r db).
Proof.
  destruct r; simpl; try done.
  - apply crear_usuario_consistente.
  - apply crear_pregunta_consistente.
  - apply crear_trivia_consistente.
  - apply responder_pregunta_consistente.
Qed.

Lemma alcanzable_consistente db : alcanzable db → consistente db.
Proof.
  induction 1; [apply consistente_vacia|by apply atender_consistente].
Qed.

Lemma alcanzable_foldl (rs : list Peticion) (db : Session) :
  alcanzable db → alcanzable (foldl (λ db r, atender r db) db rs).
Proof.
  revert db. induction rs as [|r rs IH]; intros db Hdb; simpl; [done|].
  apply IH. by constructor.
Qed.

Lemma alcanzable_ej_db : alcanzable ej_db.
Proof.
  assert (H : foldl (λ db r, atender r db) db_vacia ej_peticiones = ej_db)
    by (vm_compute; reflexivity).
  rewrite <- H. apply alcanzable_foldl, alcanzable_vacia.
Defined.

(** ** Rows are never removed or changed *)

Lemma crece_refl db : crece db db.
Proof. by split. Qed.

Lemma crece_trans db1 db2 db3 : crece db1 db2 → crece db2 db3 → crece db1 db3.
Proof. intros [] []. split; by etrans. Qed.

Lemma atender_crece r db : crece db (atender r db).
Proof.
  destruct r; simpl; try apply crece_refl.
  - unfold crear_usuario. destruct (head _); simpl; [apply crece_refl|].
    split; simpl; try done. by apply prefix_app_r.
  - unfold crear_pregunta. repeat case_decide; simpl; try apply crece_refl.
    split; simpl; try done. by apply prefix_app_r.
  - destruct (crear_trivia trivia ahora db) as [[t|e] db'] eqn:E; simpl;
      [|apply crear_trivia_Raise in E as ->; apply crece_refl].
    apply crear_trivia_Return in E
      as (_ & _ & _ & Hus & Hqs & Hts & Hps & (fq & Htq & _) & (fu & Htu & _)).
    split; rewrite ?Hus, ?Hqs, ?Hts, ?Hps, ?Htq, ?Htu; try done; by apply prefix_app_r.
  - destruct (responder_pregunta trivia_id participacion ahora db) as [[p|e] db'] eqn:E;
      simpl; [|apply responder_pregunta_Raise in E as ->; apply crece_refl].
    apply responder_pregunta_Return in E as (q & _ & _ & _ & ->).
    split; simpl; try done. by apply prefix_app_r.
Qed.

Lemma foldl_atender_crece (rs : list Peticion) (db : Session) :
  crece db (foldl (λ db r, atender r db) db rs).
Proof.
  revert db. induction rs as [|r rs IH]; intros db; simpl; [apply crece_refl|].
  eapply crece_trans; [apply atender_crece|apply IH].
Qed.

Lemma crece_existe_trivia db db' trivia_id :
  crece db db' → existe_trivia db trivia_id → existe_trivia db' trivia_id.
Proof.
  intros [_ _ [k Hk] _ _ _] (t & Ht & Hid). exists t. split; [|done].
  rewrite Hk. apply elem_of_app. by left.
Qed.

Lemma crece_usuario_asignado db db' trivia_id usuario_id :
  crece db db' → usuario_asignado db trivia_id usuario_id →
  usuario_asignado db' trivia_id usuario_id.
Proof.
  intros [_ _ _ _ [k Hk] _] (a & Ha & Hid). exists a. split; [|done].
  rewrite Hk. apply elem_of_app. by left.
Qed.

Lemma crece_pregunta_en_trivia db db' trivia_id pregunta_id :
  crece db db' → pregunta_en_trivia db trivia_id pregunta_id →
  pregunta_en_trivia db' trivia_id pregunta_id.
Proof.
  intros [_ _ _ [k Hk] _ _] (tp & Htp & Hid). exists tp. split; [|done].
  rewrite Hk. apply elem_of_app. by left.
Qed.

Lemma crece_ya_respondida db db' usuario_id trivia_id pregunta_id :
  crece db db' → ya_respondida db usuario_id trivia_id pregunta_id →
  ya_respondida db' usuario_id trivia_id pregunta_id.
Proof.
  intros [_ _ _ _ _ [k Hk]] (p & Hp & Hid). exists p. split; [|done].
  rewrite Hk. apply elem_of_app. by left.
Qed.

Lemma crece_enlaza db db' :
  crece db db' →
  (∀ n, enlaza_trivia db n → enlaza_trivia db' n)
  ∧ (∀ n, enlaza_usuario db n → enlaza_usuario db' n)
  ∧ (∀ n, enlaza_pregunta db n → enlaza_pregunta db' n).
Proof.
  intros [[ku Hu] [kq Hq] [kt Ht] _ _ _].
  unfold enlaza_trivia, enlaza_usuario, enlaza_pregunta.
  rewrite Hu, Hq, Ht, !fmap_app. repeat split; intros n; apply enlaza_app.
Qed.

(** An accepted submission has passed the first three validations. *)
Lemma responder_pregunta_Return_validada trivia_id participacion ahora db r db' :
  responder_pregunta trivia_id participacion ahora db = (Return r, db') →
  existe_trivia db trivia_id
  ∧ usuario_asignado db trivia_id (ParticipacionCreate.usuario_id participacion)
  ∧ pregunta_en_trivia db trivia_id (ParticipacionCreate.pregunta_id participacion).
Proof.
  unfold responder_pregunta. intros H.
  destruct (decide (¬ enlaza_trivia db trivia_id)); [discriminate H|].
  destruct (head (filter _ (trivias db))) as [t|] eqn:Et; [|discriminate H].
  destruct (decide (¬ enlaza_usuario db _)); [discriminate H|].
  destruct (head (filter _ (trivia_usuarios db))) as [a|] eqn:Ea; [|discriminate H].
  destruct (decide (¬ enlaza_pregunta db _)); [discriminate H|].
  destruct (head (filter _ (trivia_preguntas db))) as [tp|] eqn:Etp; [|discriminate H].
  apply first_Some in Et as [? ?]. apply first_Some in Ea as (? & ? & ?).
  apply first_Some in Etp as (? & ? & ?).
  split; [by exists t|]. split; [by exists a|by exists tp].
Qed.

(** ** One participation per user, trivia and question *)

(** C6: in every database reached through the requests, no two
    participations share their user, trivia and question; once a submission
    has been accepted, every later submission for the same user, trivia and
    question raises the 400 "Ya has respondido esta pregunta", whatever its
    answer and whatever was served in between; and a request either leaves
    [participaciones] as it was or is an accepted submission, which appends
    its one row. *)
Theorem participacion_unica db :
  alcanzable db →
  NoDup ((λ p, (Participacion.usuario_id p, Participacion.trivia_id p,
                Participacion.pregunta_id p)) <$> participaciones db)
  ∧ (∀ trivia_id participacion ahora r db1,
       responder_pregunta trivia_id participacion ahora db = (Return r, db1) →
       ∀ rs participacion' ahora',
         ParticipacionCreate.usuario_id participacion'
           = ParticipacionCreate.usuario_id participacion →
         ParticipacionCreate.pregunta_id participacion'
           = ParticipacionCreate.pregunta_id participacion →
         let db2 := foldl (λ db r, atender r db) db1 rs in
         responder_pregunta trivia_id participacion' ahora' db2
         = (Raise error_ya_respondida, db2))
  ∧ (∀ r,
       participaciones (atender r db) = participaciones db
       ∨ ∃ trivia_id participacion ahora nueva,
           r = POST_responder trivia_id participacion ahora
           ∧ (responder_pregunta trivia_id participacion ahora db).1 = Return nueva
           ∧ participaciones (atender r db) = participaciones db ++ [nueva]).
Proof.
  intros Hdb. split; [by apply alcanzable_consistente|]. split.
  - intros trivia_id participacion ahora r db1 Hr rs participacion' ahora' Hu Hq db2.
    pose proof (responder_pregunta_Return_validada _ _ _ _ _ _ Hr) as (Ht & Ha & Htp).
    pose proof (responder_pregunta_Return_enlaza _ _ _ _ _ _ Hr) as (Het & Heu & Heq).
    apply responder_pregunta_Return in Hr as (q & _ & _ & Hfila & ->).
    assert (Hc : crece db db2).
    { eapply crece_trans; [|apply foldl_atender_crece].
      split; simpl; try done. by apply prefix_app_r. }
    assert (Hya : ya_respondida db2 (ParticipacionCreate.usuario_id participacion)
                    trivia_id (ParticipacionCreate.pregunta_id participacion)).
    { eapply crece_ya_respondida; [apply foldl_atender_crece|].
      exists r. simpl. split; [apply elem_of_app; right; by apply list_elem_of_singleton|].
      by rewrite Hfila. }
    destruct (crece_enlaza db db2 Hc) as (Hct & Hcu & Hcq).
    apply responder_pregunta_validaciones; rewrite ?Hu, ?Hq;
      eauto using crece_existe_trivia, crece_usuario_asignado, crece_pregunta_en_trivia.
  - intros r. destruct r; simpl; try (by left).
    + left. unfold crear_usuario. by destruct (head _).
    + left. unfold crear_pregunta. by repeat case_decide.
    + left. destruct (crear_trivia trivia ahora db) as [[t|e] db'] eqn:E; simpl.
      * by apply crear_trivia_Return in E as (_ & _ & _ & _ & _ & _ & -> & _).
      * by apply crear_trivia_Raise in E as ->.
    + destruct (responder_pregunta trivia_id participacion ahora db) as [[p|e] db'] eqn:E;
        simpl.
      * right. exists trivia_id, participacion, ahora, p. rewrite E. simpl.
        split; [done|]. split; [done|].
        by apply responder_pregunta_Return in E as (_ & _ & _ & _ & ->).
      * left. by apply responder_pregunta_Raise in E as ->.
Qed.

Lemma participacion_unica_witness :
  alcanzable ej_db
  ∧ responder_pregunta 1 ej_respuesta 105 ej_db = (Return ej_participacion, ej_db')
  ∧ NoDup ((λ p, (Participacion.usuario_id p, Participacion.trivia_id p,
                  Participacion.pregunta_id p)) <$> participaciones ej_db)
  ∧ responder_pregunta 1 (ParticipacionCreate.Build 2 1 2 "B") 107
      (atender (POST_usuarios (UsuarioCreate.Build "Dani" "dani@tala.cl")) ej_db')
    = (Raise error_ya_respondida,
       atender (POST_usuarios (UsuarioCreate.Build "Dani" "dani@tala.cl")) ej_db').
Proof.
  assert (Hr : responder_pregunta 1 ej_respuesta 105 ej_db
               = (Return ej_participacion, ej_db')) by (vm_compute; reflexivity).
  destruct (participacion_unica ej_db alcanzable_ej_db) as (Hnd & Hotra & _).
  split; [exact alcanzable_ej_db|]. split; [exact Hr|]. split; [exact Hnd|].
  exact (Hotra 1 ej_respuesta 105 ej_participacion ej_db' Hr
           [POST_usuarios (UsuarioCreate.Build "Dani" "dani@tala.cl")]
           (ParticipacionCreate.Build 2 1 2 "B") 107 eq_refl eq_refl).
Defined.

(** ** Ranking *)

Section sort_reverse.
Context {A : Type} (key : A → Z).

Lemma insert_reverse_Permutation (x : A) (l : list A) :
  insert_reverse key x l ≡ₚ x :: l.
Proof.
  induction l as [|y l IH]; simpl; [done|].
  case_decide; [|done]. rewrite IH. apply Permutation_swap.
Qed.

Lemma sort_reverse_Permutation (l : list A) : sort_reverse key l ≡ₚ l.
Proof.
  induction l as [|x l IH]; simpl; [done|].
  by rewrite insert_reverse_Permutation, IH.
Qed.

Lemma insert_reverse_sorted (x : A) (l : list A) :
  StronglySorted (λ a b, key b ≤ key a) l →
  StronglySorted (λ a b, key b ≤ key a) (insert_reverse key x l).
Proof.
  induction 1 as [|y l Hl IH Hy]; simpl.
  - repeat constructor.
  - case_decide as Hxy.
    + constructor; [done|].
      rewrite insert_reverse_Permutation. constructor; [lia|done].
    + constructor; [by constructor|].
      constructor; [lia|]. eapply Forall_impl; [exact Hy|]. simpl. intros; lia.
Qed.

Lemma sort_reverse_sorted (l : list A) :
  StronglySorted (λ a b, key b ≤ key a) (sort_reverse key l).
Proof.
  induction l as [|x l IH]; simpl; [constructor|by apply insert_reverse_sorted].
Qed.

(** Rows with equal keys keep their order. *)
Lemma insert_reverse_stable (x : A) (l : list A) (k : Z) :
  filter (λ a, key a = k) (insert_reverse key x l) = filter (λ a, key a = k) (x :: l).
Proof.
  induction l as [|y l IH]; simpl; [done|].
  case_decide as Hxy; [|done].
  rewrite (filter_cons _ y), IH, !filter_cons.
  repeat case_decide; try done; lia.
Qed.

Lemma sort_reverse_stable (l : list A) (k : Z) :
  filter (λ a, key a = k) (sort_reverse key l) = filter (λ a, key a = k) l.
Proof.
  induction l as [|x l IH]; simpl; [done|].
  by rewrite insert_reverse_stable, !filter_cons, IH.
Qed.
End sort_reverse.

Lemma enumerate_fst {A} (k : nat) (l : list A) :
  (enumerate (Z.of_nat k) l).*1 = Z.of_nat <$> seq k (length l).
Proof.
  revert k. induction l as [|x l IH]; intros k; simpl; [done|].
  f_equal. replace (Z.of_nat k + 1) with (Z.of_nat (S k)) by lia. apply IH.
Qed.

Lemma enumerate_snd {A} (start : Z) (l : list A) : (enumerate start l).*2 = l.
Proof.
  revert start. induction l as [|x l IH]; intros start; simpl; [done|]. by rewrite IH.
Qed.

(** The first loop of [obtener_ranking] ends without an exception when every
    assignment names a user, with one item per assignment, in order. *)
Lemma ranking_items_Return trivia_id db asignaciones acc :
  (∀ a, a ∈ asignaciones →
        TriviaUsuario.usuario_id a ∈ (Usuario.id <$> usuarios db)) →
  ∃ items,
    ranking_items trivia_id db asignaciones acc = Return (acc ++ items)
    ∧ item_usuario_id <$> items = TriviaUsuario.usuario_id <$> asignaciones
    ∧ Forall (λ item,
                item_puntaje_total item
                = sum (Participacion.puntaje_obtenido <$>
                         filter (λ p, Participacion.trivia_id p = trivia_id
                                      ∧ Participacion.usuario_id p = item_usuario_id item)
                                (participaciones db))
                ∧ ∃ u, u ∈ usuarios db
                    ∧ Usuario.id u = item_usuario_id item
                    ∧ Usuario.nombre u = item_usuario_nombre item) items.
Proof.
  revert acc. induction asignaciones as [|a asignaciones IH]; intros acc Hfk; simpl.
  - exists []. by rewrite app_nil_r.
  - destruct (head (filter _ (usuarios db))) as [u|] eqn:E.
    + destruct (IH (acc ++ [{| item_usuario_id := Usuario.id u;
                               item_usuario_nombre := Usuario.nombre u;
                               item_puntaje_total :=
                                 sum (Participacion.puntaje_obtenido <$>
                                        filter (λ p, Participacion.trivia_id p = trivia_id
                                                     ∧ Participacion.usuario_id p
                                                       = Usuario.id u)
                                               (participaciones db)) |}]))
        as (items & -> & Hids & Hitems).
      { intros a' Ha'. apply Hfk. by right. }
      apply first_Some in E as [Hu Hid].
      eexists (_ :: items). rewrite <- app_assoc. split; [reflexivity|].
      split; [rewrite !fmap_cons; cbn [item_usuario_id]; by rewrite Hid, Hids|].
      constructor; [|done]. simpl. split; [done|]. by exists u.
    + exfalso. assert (Ha : a ∈ a :: asignaciones) by left.
      apply Hfk, list_elem_of_fmap in Ha as (u & Hid & Hu).
      eapply (first_None _ (usuarios db)); [exact E|exact Hu|done].
Qed.

Lemma ranking_final_fmap (l : list (Z * Item)) (acc : list RankingItem.t) :
  foldl (λ ranking_final '(posicion, item),
           ranking_final ++
           [RankingItem.Build posicion
              (item_usuario_id item)
              (item_usuario_nombre item)
              (item_puntaje_total item)]) acc l
  = acc ++ ((λ '(posicion, item),
               RankingItem.Build posicion (item_usuario_id item)
                 (item_usuario_nombre item) (item_puntaje_total item)) <$> l).
Proof.
  revert acc. induction l as [|[posicion item] l IH]; intros acc; simpl.
  - by rewrite app_nil_r.
  - by rewrite IH, <- app_assoc.
Qed.

Lemma ranking_final_campos (l : list (Z * Item)) :
  let ranking := (λ '(posicion, item),
                    RankingItem.Build posicion (item_usuario_id item)
                      (item_usuario_nombre item) (item_puntaje_total item)) <$> l in
  RankingItem.posicion <$> ranking = l.*1
  ∧ RankingItem.usuario_id <$> ranking = item_usuario_id <$> l.*2
  ∧ RankingItem.puntaje_total <$> ranking = item_puntaje_total <$> l.*2
  ∧ ∀ it, it ∈ ranking →
      ∃ item, item ∈ l.*2
        ∧ RankingItem.usuario_id it = item_usuario_id item
        ∧ RankingItem.usuario_nombre it = item_usuario_nombre item
        ∧ RankingItem.puntaje_total it = item_puntaje_total item.
Proof.
  induction l as [|[posicion item] l (IH1 & IH2 & IH3 & IH4)]; simpl.
  - repeat split. intros it Hit. by apply elem_of_nil in Hit.
  - simpl in *. split; [by f_equal|]. split; [by f_equal|]. split; [by f_equal|].
    intros it [->|Hit]%elem_of_cons.
    + exists item. simpl. repeat split. by left.
    + destruct (IH4 it Hit) as (item' & ? & ?). exists item'. split; [by right|done].
Qed.

Lemma asignados_NoDup (filas : list TriviaUsuario.t) (trivia_id : Z) :
  NoDup ((λ a, (TriviaUsuario.trivia_id a, TriviaUsuario.usuario_id a)) <$> filas) →
  NoDup (TriviaUsuario.usuario_id <$>
           filter (λ a, TriviaUsuario.trivia_id a = trivia_id) filas).
Proof.
  induction filas as [|a filas IH]; [constructor|].
  rewrite fmap_cons, NoDup_cons. intros [Ha Hnd].
  rewrite filter_cons. case_decide as Htid; [|by apply IH].
  rewrite fmap_cons. apply NoDup_cons. split; [|by apply IH].
  intros (b & Hid & [Hb Hin]%list_elem_of_filter)%list_elem_of_fmap.
  apply Ha, list_elem_of_fmap. exists b. split; [|done].
  by rewrite Hid, Htid, Hb.
Qed.

(** C3, as stated, fails: for a trivia id that does not fit in an SQLite
    INTEGER the first query raises [OverflowError], so a trivia that does
    not exist is not always answered with the 404. *)
Lemma obtener_ranking_desborda :
  ¬ (∀ trivia_id db,
       alcanzable db →
       ¬ existe_trivia db trivia_id →
       obtener_ranking trivia_id db = Raise (error_trivia trivia_id)).
Proof.
  intros H. specialize (H 9223372036854775808 ej_db alcanzable_ej_db).
  assert (Hno : ¬ existe_trivia ej_db 9223372036854775808).
  { intros Ht.
    apply (first_is_Some (λ t, Trivia.id t = 9223372036854775808)) in Ht.
    vm_compute in Ht. by destruct Ht. }
  specialize (H Hno). vm_compute in H. discriminate H.
Qed.

(** C3, amended: in every database reached through the requests,
    [obtener_ranking] raises the 404 of a missing trivia when the trivia
    does not exist and its id fits in a signed 64-bit integer, and for a
    trivia that exists returns the trivia with a ranking that has exactly
    one entry per user assigned to it; each entry carries the user's name
    and the sum of [puntaje_obtenido] over the user's participations in the
    trivia (0 when there is none); the entries are in descending order of
    [puntaje_total]; and their positions are 1, 2, ..., N in that order,
    ties included. *)
Theorem obtener_ranking_correcto trivia_id db :
  alcanzable db →
  (cabe trivia_id →
   ¬ existe_trivia db trivia_id →
     obtener_ranking trivia_id db = Raise (error_trivia trivia_id))
  ∧ (existe_trivia db trivia_id →
     ∃ r,
       obtener_ranking trivia_id db = Return r
       ∧ RankingResponse.trivia_id r = trivia_id
       ∧ (∃ t, t ∈ trivias db ∧ Trivia.id t = trivia_id
               ∧ Trivia.nombre t = RankingResponse.trivia_nombre r)
       ∧ (∀ usuario_id,
            usuario_id ∈ (RankingItem.usuario_id <$> RankingResponse.ranking r)
            ↔ usuario_asignado db trivia_id usuario_id)
       ∧ NoDup (RankingItem.usuario_id <$> RankingResponse.ranking r)
       ∧ length (RankingResponse.ranking r)
         = length (filter (λ a, TriviaUsuario.trivia_id a = trivia_id) (trivia_usuarios db))
       ∧ (∀ it, it ∈ RankingResponse.ranking r →
            RankingItem.puntaje_total it
            = foldr Z.add 0
                (Participacion.puntaje_obtenido <$>
                   filter (λ p, Participacion.trivia_id p = trivia_id
                                ∧ Participacion.usuario_id p = RankingItem.usuario_id it)
                          (participaciones db))
            ∧ ((∀ p, p ∈ participaciones db →
                     ¬ (Participacion.trivia_id p = trivia_id
                        ∧ Participacion.usuario_id p = RankingItem.usuario_id it)) →
               RankingItem.puntaje_total it = 0)
            ∧ ∃ u, u ∈ usuarios db
                ∧ Usuario.id u = RankingItem.usuario_id it
                ∧ Usuario.nombre u = RankingItem.usuario_nombre it)
       ∧ StronglySorted (λ x y, y ≤ x)
           (RankingItem.puntaje_total <$> RankingResponse.ranking r)
       ∧ RankingItem.posicion <$> RankingResponse.ranking r
         = Z.of_nat <$> seq 1 (length (RankingResponse.ranking r))).
Proof.
  intros [_ _ _ _ Hfk Hnd _]%alcanzable_consistente. unfold obtener_ranking. split.
  - intros Hc Hno. rewrite decide_False by (intros Hn; apply Hn; by left).
    destruct (head (filter _ (trivias db))) as [t|] eqn:E; [|done].
    apply first_Some in E as [? ?]. destruct Hno. by exists t.
  - intros Ht.
    rewrite decide_False by (intros Hn; by apply Hn, existe_trivia_enlaza).
    apply (first_is_Some (λ t, Trivia.id t = trivia_id)) in Ht as [t Ht].
    rewrite Ht. apply first_Some in Ht as [Ht Htid].
    set (asignaciones := filter (λ a, TriviaUsuario.trivia_id a = trivia_id)
                                (trivia_usuarios db)).
    destruct (ranking_items_Return trivia_id db asignaciones [])
      as (items & -> & Hids & Hitems).
    { intros a [_ Ha]%list_elem_of_filter. by apply Hfk. }
    rewrite app_nil_l, ranking_final_fmap, app_nil_l.
    set (ordenados := sort_reverse item_puntaje_total items).
    destruct (ranking_final_campos (enumerate 1 ordenados)) as (Hpos & Huid & Htot & Hin).
    rewrite enumerate_snd in Huid, Htot, Hin.
    assert (Hperm : ordenados ≡ₚ items) by apply sort_reverse_Permutation.
    eexists. split; [reflexivity|]. simpl.
    split; [done|]. split; [by exists t|].
    assert (Hlen : length ordenados = length asignaciones).
    { by rewrite Hperm, <- (length_fmap item_usuario_id), Hids, length_fmap. }
    assert (Henum : length (enumerate 1 ordenados) = length ordenados).
    { by rewrite <- (length_fmap snd), enumerate_snd. }
    split; [|split; [|split; [|split; [|split]]]].
    + intros usuario_id. rewrite Huid, Hperm, Hids. split.
      * intros (a & -> & [Htida Ha]%list_elem_of_filter)%list_elem_of_fmap. by exists a.
      * intros (a & Ha & Htida & <-). by apply list_elem_of_fmap_2, list_elem_of_filter.
    + rewrite Huid, Hperm, Hids. by apply asignados_NoDup.
    + by rewrite length_fmap, Henum.
    + intros it Hit. destruct (Hin it Hit) as (item & Hitem & Hu & Hn & Hp).
      rewrite Hperm in Hitem. rewrite Forall_forall in Hitems.
      destruct (Hitems item Hitem) as [Hsum (u & Hu1 & Hu2 & Hu3)].
      rewrite Hp, Hu. split; [by rewrite <- sum_foldr|].
      split; [|exists u; by rewrite Hn].
      intros Hno. rewrite Hsum.
      apply (first_None (λ p, Participacion.trivia_id p = trivia_id
                              ∧ Participacion.usuario_id p = item_usuario_id item))
        in Hno.
      apply head_None in Hno. by rewrite Hno.
    + rewrite Htot.
      apply (StronglySorted_fmap _ (λ a b, item_puntaje_total b ≤ item_puntaje_total a));
        [done|apply sort_reverse_sorted].
    + rewrite Hpos, length_fmap, Henum. apply (enumerate_fst 1).
Qed.

Lemma obtener_ranking_correcto_witness :
  alcanzable ej_db
  ∧ existe_trivia ej_db 1
  ∧ ∃ r,
      obtener_ranking 1 ej_db = Return r
      ∧ RankingItem.puntaje_total <$> RankingResponse.ranking r = [3; 2; 2]
      ∧ (∀ usuario_id,
           usuario_id ∈ (RankingItem.usuario_id <$> RankingResponse.ranking r)
           ↔ usuario_asignado ej_db 1 usuario_id)
      ∧ NoDup (RankingItem.usuario_id <$> RankingResponse.ranking r)
      ∧ StronglySorted (λ x y, y ≤ x)
          (RankingItem.puntaje_total <$> RankingResponse.ranking r)
      ∧ RankingItem.posicion <$> RankingResponse.ranking r
        = Z.of_nat <$> seq 1 (length (RankingResponse.ranking r)).
Proof.
  assert (Ht : existe_trivia ej_db 1).
  { apply (first_is_Some (λ t, Trivia.id t = 1)). vm_compute. by eexists. }
  split; [exact alcanzable_ej_db|]. split; [exact Ht|].
  destruct (obtener_ranking_correcto 1 ej_db alcanzable_ej_db) as [_ Hr].
  destruct (Hr Ht) as (r & Heq & _ & _ & Hu & Hnd & _ & _ & Hs & Hp).
  exists r. split; [exact Heq|].
  split; [vm_compute in Heq; injection Heq as <-; vm_compute; reflexivity|].
  split; [exact Hu|]. split; [exact Hnd|].
  split; [exact Hs|exact Hp].
Defined.

(** ** The scenarios of the specification *)

(** Two users tied at 2 points behind one at 3: positions 1, 2, 3, the tied
    pair in the order of their assignments. *)
Example ej_ranking :
  obtener_ranking 1 ej_db
  = Return (RankingResponse.Build 1 "RRHH"
              [RankingItem.Build 1 1 "Ana" 3;
               RankingItem.Build 2 2 "Beto" 2;
               RankingItem.Build 3 3 "Caro" 2]).
Proof. vm_compute. reflexivity. Qed.

(** A correct answer to a "medio" question earns 2 points, and a second
    answer to it is refused. *)
Example ej_medio :
  let db1 := (crear_trivia (TriviaCreate.Build "Otra" None [1] [1]) 200 ej_db).2 in
  let r := responder_pregunta 2 (ParticipacionCreate.Build 1 2 1 "B") 201 db1 in
  r.1 = Return (Participacion.Build 5 1 2 1 "B" 1 2 201)
  ∧ (responder_pregunta 2 (ParticipacionCreate.Build 1 2 1 "A") 202 r.2).1
    = Raise error_ya_respondida.
Proof. vm_compute. split; reflexivity. Qed.

(** Answers are compared as they are: "b" does not answer "B". *)
Example ej_minuscula :
  Participacion.es_correcta <$> last (participaciones ej_db) = Some 0
  ∧ Participacion.respuesta_dada <$> last (participaciones ej_db) = Some "b".
Proof. vm_compute. split; reflexivity. Qed.

(** The player's view of the example trivia. *)
Example ej_jugador :
  ver_trivia_jugador 1 2 ej_db
  = Return [PreguntaJugador.Build 1 "P1" [("A", "x"); ("B", "y")];
            PreguntaJugador.Build 2 "P2" [("A", "x"); ("B", "y")];
            PreguntaJugador.Build 3 "P3" [("A", "x"); ("B", "y")]].
Proof. vm_compute. reflexivity. Qed.

(** ** Creating a question *)

(** X1: [crear_pregunta] first requires the correct answer to be a key of the
    options, then the difficulty to be "fácil", "medio" or "difícil"; each
    failure raises its own 400 and stores nothing.  A question that passes
    both is appended to [preguntas] as submitted, under an id that no stored
    question has, and no other table changes. *)
Theorem crear_pregunta_validaciones pregunta db :
  let claves := fst <$> PreguntaCreate.opciones pregunta in
  (PreguntaCreate.respuesta_correcta pregunta ∉ claves →
     crear_pregunta pregunta db
     = (Raise (HTTPException HTTP_400_BAD_REQUEST
                 "La respuesta correcta debe estar en las opciones"), db))
  ∧ (PreguntaCreate.respuesta_correcta pregunta ∈ claves →
     PreguntaCreate.dificultad pregunta ∉ dificultades_validas →
     crear_pregunta pregunta db
     = (Raise (HTTPException HTTP_400_BAD_REQUEST
                 "La dificultad debe ser una de: fácil, medio, difícil"), db))
  ∧ (PreguntaCreate.respuesta_correcta pregunta ∈ claves →
     PreguntaCreate.dificultad pregunta ∈ dificultades_validas →
     ∃ nueva db',
       crear_pregunta pregunta db = (Return nueva, db')
       ∧ nueva = Pregunta.Build (Pregunta.id nueva)
                   (PreguntaCreate.texto_pregunta pregunta)
                   (PreguntaCreate.opciones pregunta)
                   (PreguntaCreate.respuesta_correcta pregunta)
                   (PreguntaCreate.dificultad pregunta)
       ∧ (Pregunta.id nueva ∉ (Pregunta.id <$> preguntas db))
       ∧ preguntas db' = preguntas db ++ [nueva]
       ∧ usuarios db' = usuarios db
       ∧ trivias db' = trivias db
       ∧ trivia_preguntas db' = trivia_preguntas db
       ∧ trivia_usuarios db' = trivia_usuarios db
       ∧ participaciones db' = participaciones db).
Proof.
  intros claves. unfold crear_pregunta. fold claves. split; [|split].
  - intros Hno. by rewrite decide_True.
  - intros Hsi Hno. rewrite decide_False by (by intros ?). by rewrite decide_True.
  - intros Hsi Hdif. rewrite decide_False by (by intros ?).
    rewrite decide_False by (by intros ?). simpl.
    do 2 eexists. split; [reflexivity|]. simpl.
    repeat split; try reflexivity. apply nuevo_id_fresco.
Qed.

Lemma crear_pregunta_validaciones_witness :
  ("Z" ∉ (fst <$> [("A", "x"); ("B", "y")]))
  ∧ crear_pregunta (PreguntaCreate.Build "P" [("A", "x"); ("B", "y")] "Z" "imposible") ej_db
    = (Raise (HTTPException HTTP_400_BAD_REQUEST
                "La respuesta correcta debe estar en las opciones"), ej_db).
Proof.
  assert (H : "Z" ∉ (fst <$> [("A", "x"); ("B", "y")])) by decidir.
  split; [exact H|].
  by apply (crear_pregunta_validaciones
              (PreguntaCreate.Build "P" [("A", "x"); ("B", "y")] "Z" "imposible") ej_db).
Defined.

(** ** Reading a row back by its id *)

(** A row appended under a key that no row has is the one [first()] finds
    for that key, and the rows found before are still found. *)
Lemma first_pk_nueva {A} (key : A → Z) (rows : list A) (x : A) :
  key x ∉ (key <$> rows) →
  head (filter (λ r, key r = key x) (rows ++ [x])) = Some x.
Proof.
  intros Hx. rewrite filter_app.
  replace (filter (λ r, key r = key x) rows) with (@nil A).
  - simpl. rewrite filter_cons, decide_True; done.
  - symmetry. apply head_None, first_None. intros r Hr Heq.
    apply Hx. rewrite <- Heq. by apply list_elem_of_fmap_2.
Qed.

Lemma first_app_Some {A} (P : A → Prop) `{!∀ x, Decision (P x)} (l k : list A) (x : A) :
  head (filter P l) = Some x → head (filter P (l ++ k)) = Some x.
Proof.
  intros Hx. rewrite filter_app. apply head_Some in Hx as [l' ->]. done.
Qed.

Lemma first_sin_clave {A} (key : A → Z) (rows : list A) (k : Z) :
  k ∉ (key <$> rows) → head (filter (λ r, key r = k) rows) = None.
Proof.
  intros Hk. apply first_None. intros r Hr Heq.
  apply Hk. rewrite <- Heq. by apply list_elem_of_fmap_2.
Qed.

(** X2: With unique ids in [usuarios], [obtener_usuario] returns each stored
    user under its id; for an id that no user has it raises the 404 naming
    the id when the id fits in a signed 64-bit integer, and [OverflowError]
    when it does not; a user just registered is returned under the id the
    registration gave it, the users stored before are still returned, and
    [listar_usuarios] shows the new user last. *)
Theorem obtener_usuario_por_id db :
  NoDup (Usuario.id <$> usuarios db) →
  (∀ u, u ∈ usuarios db → obtener_usuario (Usuario.id u) db = Return u)
  ∧ (∀ k, k ∉ (Usuario.id <$> usuarios db) → cabe k →
       obtener_usuario k db
       = Raise (HTTPException HTTP_404_NOT_FOUND
                  ("Usuario con ID " +:+ pretty k +:+ " no encontrado")))
  ∧ (∀ k, k ∉ (Usuario.id <$> usuarios db) → ¬ cabe k →
       obtener_usuario k db = Raise OverflowError)
  ∧ (∀ usuario nuevo db',
       crear_usuario usuario db = (Return nuevo, db') →
       obtener_usuario (Usuario.id nuevo) db' = Return nuevo
       ∧ (∀ u, u ∈ usuarios db → obtener_usuario (Usuario.id u) db' = Return u)
       ∧ listar_usuarios db' = Return (usuarios db ++ [nuevo])).
Proof.
  intros Hpk. unfold obtener_usuario, listar_usuarios, enlaza_usuario.
  split; [|split; [|split]].
  - intros u Hu.
    rewrite decide_False by (intros Hn; by apply Hn, clave_enlaza, list_elem_of_fmap_2).
    by rewrite (first_pk Usuario.id).
  - intros k Hk Hc. rewrite decide_False by (intros Hn; by apply Hn, cabe_enlaza).
    by rewrite (first_sin_clave Usuario.id).
  - intros k Hk Hc. rewrite decide_True; [done|]. by intros [?|?].
  - intros usuario nuevo db' H. unfold crear_usuario in H.
    destruct (head _); [discriminate H|]. simpl in H. injection H as <- <-.
    cbn [usuarios Usuario.id].
    split; [|split; [|done]].
    + rewrite decide_False.
      2: { intros Hn. apply Hn, clave_enlaza. rewrite fmap_app.
           apply elem_of_app. right. left. }
      simpl.
      pose proof (first_pk_nueva Usuario.id (usuarios db)
                    (Usuario.Build (nuevo_id (Usuario.id <$> usuarios db))
                       (UsuarioCreate.nombre usuario) (UsuarioCreate.email usuario))
                    (nuevo_id_fresco _)) as Hf.
      simpl in Hf. by rewrite Hf.
    + intros u Hu.
      rewrite decide_False.
      2: { intros Hn. apply Hn, clave_enlaza. rewrite fmap_app.
           apply elem_of_app. left. by apply list_elem_of_fmap_2. }
      simpl.
      by rewrite (first_app_Some _ _ _ u (first_pk Usuario.id _ u Hpk Hu)).
Qed.

Lemma obtener_usuario_por_id_witness :
  NoDup (Usuario.id <$> usuarios ej_db)
  ∧ (7 ∉ (Usuario.id <$> usuarios ej_db))
  ∧ cabe 7
  ∧ obtener_usuario 7 ej_db
    = Raise (HTTPException HTTP_404_NOT_FOUND "Usuario con ID 7 no encontrado").
Proof.
  assert (Hpk : NoDup (Usuario.id <$> usuarios ej_db)) by decidir.
  assert (H7 : 7 ∉ (Usuario.id <$> usuarios ej_db)) by decidir.
  assert (C7 : cabe 7) by decidir.
  split; [exact Hpk|]. split; [exact H7|]. split; [exact C7|].
  destruct (obtener_usuario_por_id ej_db Hpk) as (_ & H404 & _).
  exact (H404 7 H7 C7).
Defined.

(** X3: With unique ids in [preguntas], [obtener_pregunta] returns each
    stored question under its id, correct answer and difficulty included;
    for an id that no question has it raises the 404 naming the id when the
    id fits in a signed 64-bit integer, and [OverflowError] when it does
    not; a question just created is returned under its new id, the questions
    stored before are still returned, and [listar_preguntas] shows the new
    question last. *)
Theorem obtener_pregunta_por_id db :
  NoDup (Pregunta.id <$> preguntas db) →
  (∀ q, q ∈ preguntas db → obtener_pregunta (Pregunta.id q) db = Return q)
  ∧ (∀ k, k ∉ (Pregunta.id <$> preguntas db) → cabe k →
       obtener_pregunta k db
       = Raise (HTTPException HTTP_404_NOT_FOUND
                  ("Pregunta con ID " +:+ pretty k +:+ " no encontrada")))
  ∧ (∀ k, k ∉ (Pregunta.id <$> preguntas db) → ¬ cabe k →
       obtener_pregunta k db = Raise OverflowError)
  ∧ (∀ pregunta nueva db',
       crear_pregunta pregunta db = (Return nueva, db') →
       obtener_pregunta (Pregunta.id nueva) db' = Return nueva
       ∧ (∀ q, q ∈ preguntas db → obtener_pregunta (Pregunta.id q) db' = Return q)
       ∧ listar_preguntas db' = Return (preguntas db ++ [nueva])).
Proof.
  intros Hpk. unfold obtener_pregunta, listar_preguntas, enlaza_pregunta.
  split; [|split; [|split]].
  - intros q Hq.
    rewrite decide_False by (intros Hn; by apply Hn, clave_enlaza, list_elem_of_fmap_2).
    by rewrite (first_pk Pregunta.id).
  - intros k Hk Hc. rewrite decide_False by (intros Hn; by apply Hn, cabe_enlaza).
    by rewrite (first_sin_clave Pregunta.id).
  - intros k Hk Hc. rewrite decide_True; [done|]. by intros [?|?].
  - intros pregunta nueva db' H. unfold crear_pregunta in H.
    destruct (decide (PreguntaCreate.respuesta_correcta pregunta ∉ _));
      [discriminate H|].
    destruct (decide (PreguntaCreate.dificultad pregunta ∉ _)); [discriminate H|].
    simpl in H. injection H as <- <-.
    cbn [preguntas Pregunta.id].
    split; [|split; [|done]].
    + rewrite decide_False.
      2: { intros Hn. apply Hn, clave_enlaza. rewrite fmap_app.
           apply elem_of_app. right. left. }
      simpl.
      pose proof (first_pk_nueva Pregunta.id (preguntas db)
                    (Pregunta.Build (nuevo_id (Pregunta.id <$> preguntas db))
                       (PreguntaCreate.texto_pregunta pregunta)
                       (PreguntaCreate.opciones pregunta)
                       (PreguntaCreate.respuesta_correcta pregunta)
                       (PreguntaCreate.dificultad pregunta))
                    (nuevo_id_fresco _)) as Hf.
      simpl in Hf. by rewrite Hf.
    + intros q Hq.
      rewrite decide_False.
      2: { intros Hn. apply Hn, clave_enlaza. rewrite fmap_app.
           apply elem_of_app. left. by apply list_elem_of_fmap_2. }
      simpl.
      by rewrite (first_app_Some _ _ _ q (first_pk Pregunta.id _ q Hpk Hq)).
Qed.

Lemma obtener_pregunta_por_id_witness :
  NoDup (Pregunta.id <$> preguntas ej_db)
  ∧ (9223372036854775808 ∉ (Pregunta.id <$> preguntas ej_db))
  ∧ ¬ cabe 9223372036854775808
  ∧ obtener_pregunta 9223372036854775808 ej_db = Raise OverflowError.
Proof.
  assert (Hpk : NoDup (Pregunta.id <$> preguntas ej_db)) by decidir.
  assert (Hk : 9223372036854775808 ∉ (Pregunta.id <$> preguntas ej_db)) by decidir.
  assert (Hc : ¬ cabe 9223372036854775808) by decidir.
  split; [exact Hpk|]. split; [exact Hk|]. split; [exact Hc|].
  destruct (obtener_pregunta_por_id ej_db Hpk) as (_ & _ & Hover & _).
  exact (Hover _ Hk Hc).
Defined.

(** X4: With unique ids in [trivias], [obtener_trivia] returns each stored
    trivia under its id; for an id that no trivia has it raises the 404
    naming the id when the id fits in a signed 64-bit integer, and
    [OverflowError] when it does not; a trivia just created is returned
    under its new id, the trivias stored before are still returned, and
    [listar_trivias] shows the new one last. *)
Theorem obtener_trivia_por_id db :
  NoDup (Trivia.id <$> trivias db) →
  (∀ t, t ∈ trivias db → obtener_trivia (Trivia.id t) db = Return t)
  ∧ (∀ k, k ∉ (Trivia.id <$> trivias db) → cabe k →
       obtener_trivia k db
       = Raise (HTTPException HTTP_404_NOT_FOUND
                  ("Trivia con ID " +:+ pretty k +:+ " no encontrada")))
  ∧ (∀ k, k ∉ (Trivia.id <$> trivias db) → ¬ cabe k →
       obtener_trivia k db = Raise OverflowError)
  ∧ (∀ trivia ahora nueva db',
       crear_trivia trivia ahora db = (Return nueva, db') →
       obtener_trivia (Trivia.id nueva) db' = Return nueva
       ∧ (∀ t, t ∈ trivias db → obtener_trivia (Trivia.id t) db' = Return t)
       ∧ listar_trivias db' = Return (trivias db ++ [nueva])).
Proof.
  intros Hpk. unfold obtener_trivia, listar_trivias, enlaza_trivia.
  split; [|split; [|split]].
  - intros t Ht.
    rewrite decide_False by (intros Hn; by apply Hn, clave_enlaza, list_elem_of_fmap_2).
    by rewrite (first_pk Trivia.id).
  - intros k Hk Hc. rewrite decide_False by (intros Hn; by apply Hn, cabe_enlaza).
    by rewrite (first_sin_clave Trivia.id).
  - intros k Hk Hc. rewrite decide_True; [done|]. by intros [?|?].
  - intros trivia ahora nueva db' H.
    apply crear_trivia_Return in H as (_ & _ & Hn & _ & _ & Hts & _).
    split; [|split; [|by rewrite Hts]].
    + rewrite decide_False.
      2: { intros Hno. apply Hno, clave_enlaza. rewrite Hts, fmap_app.
           apply elem_of_app. right. left. }
      rewrite Hts, (first_pk_nueva Trivia.id); [done|]. rewrite Hn. apply nuevo_id_fresco.
    + intros t Ht.
      rewrite decide_False.
      2: { intros Hno. apply Hno, clave_enlaza. rewrite Hts, fmap_app.
           apply elem_of_app. left. by apply list_elem_of_fmap_2. }
      by rewrite Hts, (first_app_Some _ _ _ t (first_pk Trivia.id _ t Hpk Ht)).
Qed.

Lemma obtener_trivia_por_id_witness :
  NoDup (Trivia.id <$> trivias ej_db)
  ∧ Trivia.Build 1 "RRHH" None 100 ∈ trivias ej_db
  ∧ (7 ∉ (Trivia.id <$> trivias ej_db))
  ∧ cabe 7
  ∧ obtener_trivia 1 ej_db = Return (Trivia.Build 1 "RRHH" None 100)
  ∧ obtener_trivia 7 ej_db
    = Raise (HTTPException HTTP_404_NOT_FOUND "Trivia con ID 7 no encontrada").
Proof.
  assert (Hpk : NoDup (Trivia.id <$> trivias ej_db)) by decidir.
  assert (Ht : Trivia.Build 1 "RRHH" None 100 ∈ trivias ej_db) by decidir.
  assert (H7 : 7 ∉ (Trivia.id <$> trivias ej_db)) by decidir.
  assert (C7 : cabe 7) by decidir.
  split; [exact Hpk|]. split; [exact Ht|]. split; [exact H7|]. split; [exact C7|].
  destruct (obtener_trivia_por_id ej_db Hpk) as (Hok & H404 & _ & _).
  split; [exact (Hok _ Ht)|exact (H404 7 H7 C7)].
Defined.

(** ** Creating a trivia that is accepted *)



(** ** Rows are only appended *)

(** X6: No sequence of requests removes or changes a stored row: each table of
    the database it leads to begins with the table as it was. *)
Theorem peticiones_solo_agregan (rs : list Peticion) (db : Session) :
  let db' := foldl (λ db r, atender r db) db rs in
  usuarios db `prefix_of` usuarios db'
  ∧ preguntas db `prefix_of` preguntas db'
  ∧ trivias db `prefix_of` trivias db'
  ∧ trivia_preguntas db `prefix_of` trivia_preguntas db'
  ∧ trivia_usuarios db `prefix_of` trivia_usuarios db'
  ∧ participaciones db `prefix_of` participaciones db'.
Proof.
  intros db'. by destruct (foldl_atender_crece rs db).
Qed.

(** ** Integrity of what is stored *)

Lemma integra_vacia : integra db_vacia.
Proof.
  split; simpl; try apply NoDup_nil_2; intros x Hx; by apply elem_of_nil in Hx.
Qed.

Lemma crear_usuario_integra usuario db :
  integra db → integra (crear_usuario usuario db).2.
Proof.
  intros [He Hq Htp Hfk Hcal]. unfold crear_usuario.
  destruct (head _) eqn:E; [done|]. simpl.
  split; simpl; try done.
  - rewrite fmap_app. apply NoDup_app. split; [done|]. split; [|apply NoDup_singleton].
    intros e (u & -> & Hu)%list_elem_of_fmap Heq%list_elem_of_singleton.
    eapply (first_None _ (usuarios db)); [exact E|exact Hu|exact Heq].
Qed.

Lemma crear_pregunta_integra pregunta db :
  integra db → integra (crear_pregunta pregunta db).2.
Proof.
  intros [He Hq Htp Hfk Hcal]. unfold crear_pregunta.
  case_decide as Hresp; [done|]. case_decide as Hdif; [done|]. simpl.
  split; simpl; try done.
  - intros q [Hin|Hin]%elem_of_app; [by apply Hq|].
    apply list_elem_of_singleton in Hin as ->. done.
  - intros p Hp. destruct (Hcal p Hp) as (q & Hin & Hrest).
    exists q. split; [apply elem_of_app; by left|done].
Qed.

Lemma crear_trivia_integra trivia ahora db :
  consistente db → integra db → integra (crear_trivia trivia ahora db).2.
Proof.
  intros [Hpku Hpkq Hpkt Hfkq Hfku Hnu Hnp] [He Hq Htp Hfk Hcal].
  pose proof (atender_crece (POST_trivias trivia ahora) db) as Hc. simpl in Hc.
  destruct (crear_trivia trivia ahora db) as [[t|e] db'] eqn:E; simpl in *;
    [|by apply crear_trivia_Raise in E as ->].
  apply crear_trivia_Return in E
    as (Hlq & _ & Ht & Hus & Hqs & Hts & Hps & (fq & Htq & Hfq) & _).
  apply (in_len Pregunta.id) in Hlq as [Hq_nd _]; [|done].
  assert (Hid : Trivia.id t = nuevo_id (Trivia.id <$> trivias db)) by by rewrite Ht.
  split; rewrite ?Hus, ?Hqs, ?Hps; try done.
  - rewrite Htq, fmap_app, Hfq. apply NoDup_app. split; [done|]. split.
    + intros [tid qid] (tp & [= -> ->] & Htpin)%list_elem_of_fmap
             (i & [= Htid _] & _)%list_elem_of_fmap.
      destruct (Hfkq tp Htpin) as [Hin _].
      rewrite Htid, Hid in Hin. by apply nuevo_id_fresco in Hin.
    + apply NoDup_fmap_2; [|done]. by intros i j [= ->].
  - intros p Hp. destruct (Hfk p Hp).
    eauto using crece_usuario_asignado, crece_pregunta_en_trivia.
Qed.

Lemma responder_pregunta_integra trivia_id participacion ahora db :
  integra db → integra (responder_pregunta trivia_id participacion ahora db).2.
Proof.
  intros [He Hq Htp Hfk Hcal].
  pose proof (atender_crece (POST_responder trivia_id participacion ahora) db) as Hc.
  simpl in Hc.
  destruct (responder_pregunta trivia_id participacion ahora db) as [[r|e] db'] eqn:E;
    simpl in *; [|by apply responder_pregunta_Raise in E as ->].
  pose proof (responder_pregunta_Return_validada _ _ _ _ _ _ E) as (_ & Ha & Hen).
  apply responder_pregunta_Return in E as (q & Hfirst & _ & Hr & ->).
  apply first_Some in Hfirst as [Hqin Hqid].
  split; simpl; try done.
  - intros p [Hp|Hp]%elem_of_app.
    + destruct (Hfk p Hp).
      eauto using crece_usuario_asignado, crece_pregunta_en_trivia.
    + apply list_elem_of_singleton in Hp as ->. rewrite Hr. simpl.
      eauto using crece_usuario_asignado, crece_pregunta_en_trivia.
  - intros p [Hp|Hp]%elem_of_app; [by apply Hcal|].
    apply list_elem_of_singleton in Hp as ->.
    exists q. rewrite Hr. simpl. done.
Qed.

Lemma atender_integra r db : consistente db → integra db → integra (atender r db).
Proof.
  intros Hc Hi. destruct r; simpl; try done.
  - by apply crear_usuario_integra.
  - by apply crear_pregunta_integra.
  - by apply crear_trivia_integra.
  - by apply responder_pregunta_integra.
Qed.

Lemma alcanzable_integra db : alcanzable db → integra db.
Proof.
  induction 1 as [|r db Hdb IH]; [apply integra_vacia|].
  apply atender_integra; [by apply alcanzable_consistente|done].
Qed.

Lemma NoDup_fmap_eq {A B} (f : A → B) (l : list A) (x y : A) :
  NoDup (f <$> l) → x ∈ l → y ∈ l → f x = f y → x = y.
Proof.
  induction l as [|z l IH]; [by intros _ ?%elem_of_nil|].
  rewrite fmap_cons, NoDup_cons. intros [Hz Hnd] Hx Hy Heq.
  apply elem_of_cons in Hx as [->|Hx]; apply elem_of_cons in Hy as [->|Hy]; try done.
  - destruct Hz. rewrite Heq. by apply list_elem_of_fmap_2.
  - destruct Hz. rewrite <- Heq. by apply list_elem_of_fmap_2.
  - by apply IH.
Qed.

(** X7: In every database reached through the requests no two users share an
    email: a registration is refused when [first()] finds its email, so the
    [unique] column of the model is never violated. *)
Theorem emails_unicos_siempre db :
  alcanzable db →
  NoDup (Usuario.email <$> usuarios db)
  ∧ ∀ u1 u2, u1 ∈ usuarios db → u2 ∈ usuarios db →
             Usuario.email u1 = Usuario.email u2 → u1 = u2.
Proof.
  intros [He _ _ _ _]%alcanzable_integra. split; [done|].
  intros u1 u2. by apply NoDup_fmap_eq.
Qed.

Lemma emails_unicos_siempre_witness :
  alcanzable ej_db ∧ NoDup (Usuario.email <$> usuarios ej_db).
Proof.
  split; [exact alcanzable_ej_db|].
  by destruct (emails_unicos_siempre ej_db alcanzable_ej_db).
Defined.

Lemma puntajes_validas (d : string) :
  d ∈ dificultades_validas → ∃ n, puntajes !! d = Some n ∧ 1 ≤ n ≤ 3.
Proof.
  unfold dificultades_validas. rewrite !elem_of_cons.
  intros [->|[->|[->|Hd]]].
  - exists 1. split; [apply puntajes_facil|lia].
  - exists 2. split; [apply puntajes_medio|lia].
  - exists 3. split; [apply puntajes_dificil|lia].
  - by apply elem_of_nil in Hd.
Qed.

(** X8: In every database reached through the requests each stored question
    has its correct answer among the keys of its options and one of the
    three difficulties, so the table of points has an entry for it and the
    default of [puntajes.get] is never what a correct answer earns. *)
Theorem preguntas_validas_siempre db :
  alcanzable db →
  ∀ q, q ∈ preguntas db →
    Pregunta.respuesta_correcta q ∈ (fst <$> Pregunta.opciones q)
    ∧ Pregunta.dificultad q ∈ dificultades_validas
    ∧ ∃ n, puntajes !! Pregunta.dificultad q = Some n ∧ 1 ≤ n ≤ 3.
Proof.
  intros [_ Hq _ _ _]%alcanzable_integra q Hin.
  destruct (Hq q Hin) as [Hresp Hdif].
  split; [done|]. split; [done|]. by apply puntajes_validas.
Qed.

Lemma preguntas_validas_siempre_witness :
  alcanzable ej_db
  ∧ Pregunta.Build 2 "P2" [("A", "x"); ("B", "y")] "A" "difícil" ∈ preguntas ej_db
  ∧ "A" ∈ (fst <$> [("A", "x"); ("B", "y")])
  ∧ "difícil" ∈ dificultades_validas
  ∧ ∃ n, puntajes !! "difícil" = Some n ∧ 1 ≤ n ≤ 3.
Proof.
  assert (Hq : Pregunta.Build 2 "P2" [("A", "x"); ("B", "y")] "A" "difícil"
               ∈ preguntas ej_db) by decidir.
  split; [exact alcanzable_ej_db|]. split; [exact Hq|].
  exact (preguntas_validas_siempre ej_db alcanzable_ej_db _ Hq).
Defined.

(** The grading a stored participation carries, as ranges. *)
Lemma participacion_rango db p :
  integra db → p ∈ participaciones db →
  (Participacion.es_correcta p = 1 ∧ 1 ≤ Participacion.puntaje_obtenido p ≤ 3)
  ∨ (Participacion.es_correcta p = 0 ∧ Participacion.puntaje_obtenido p = 0).
Proof.
  intros [_ Hq _ _ Hcal] Hp. destruct (Hcal p Hp) as (q & Hin & _ & Hes & Hpts).
  case_decide; [left|right; done].
  destruct (Hq q Hin) as [_ Hdif]. apply puntajes_validas in Hdif as (n & Hn & ?).
  rewrite Hn in Hpts. simpl in Hpts. split; [done|lia].
Qed.

(** X9: In every database reached through the requests each stored
    participation belongs to a user assigned to its trivia and answers a
    question of that trivia; its [es_correcta] is 1 and its points are those
    of the question's difficulty (1 to 3) when its answer is the question's
    correct answer, and both are 0 otherwise. *)
Theorem participaciones_calificadas_siempre db :
  alcanzable db →
  ∀ p, p ∈ participaciones db →
    usuario_asignado db (Participacion.trivia_id p) (Participacion.usuario_id p)
    ∧ pregunta_en_trivia db (Participacion.trivia_id p) (Participacion.pregunta_id p)
    ∧ ∃ q, q ∈ preguntas db
        ∧ Pregunta.id q = Participacion.pregunta_id p
        ∧ ((Participacion.respuesta_dada p = Pregunta.respuesta_correcta q
            ∧ Participacion.es_correcta p = 1
            ∧ puntajes !! Pregunta.dificultad q = Some (Participacion.puntaje_obtenido p)
            ∧ 1 ≤ Participacion.puntaje_obtenido p ≤ 3)
           ∨ (Participacion.respuesta_dada p ≠ Pregunta.respuesta_correcta q
              ∧ Participacion.es_correcta p = 0
              ∧ Participacion.puntaje_obtenido p = 0)).
Proof.
  intros Hdb p Hp. pose proof (alcanzable_integra db Hdb) as [_ Hq _ Hfk Hcal].
  destruct (Hfk p Hp) as [Ha Hen]. split; [done|]. split; [done|].
  destruct (Hcal p Hp) as (q & Hin & Hid & Hes & Hpts).
  exists q. split; [done|]. split; [done|].
  case_decide as Heq; [left|right; done].
  destruct (Hq q Hin) as [_ Hdif]. apply puntajes_validas in Hdif as (n & Hn & ?).
  rewrite Hn in Hpts. simpl in Hpts. rewrite Hn, Hpts. repeat split; try done; lia.
Qed.

Lemma participaciones_calificadas_siempre_witness :
  alcanzable ej_db
  ∧ Participacion.Build 3 1 1 2 "A" 1 3 103 ∈ participaciones ej_db
  ∧ usuario_asignado ej_db 1 1
  ∧ pregunta_en_trivia ej_db 1 2.
Proof.
  assert (Hp : Participacion.Build 3 1 1 2 "A" 1 3 103 ∈ participaciones ej_db)
    by decidir.
  split; [exact alcanzable_ej_db|]. split; [exact Hp|].
  destruct (participaciones_calificadas_siempre ej_db alcanzable_ej_db _ Hp)
    as (Ha & Hen & _).
  split; [exact Ha|exact Hen].
Defined.

(** ** Scores *)

Lemma sum_snoc (l : list Z) (x : Z) : sum (l ++ [x]) = sum l + x.
Proof. unfold sum. by rewrite foldl_snoc. Qed.

Lemma cotas_filas (l : list Participacion.t) :
  Forall (λ p, (Participacion.es_correcta p = 1
                ∧ 1 ≤ Participacion.puntaje_obtenido p ≤ 3)
               ∨ (Participacion.es_correcta p = 0
                  ∧ Participacion.puntaje_obtenido p = 0)) l →
  0 ≤ len (filter (λ p, Participacion.es_correcta p = 1) l) ≤ len l
  ∧ len (filter (λ p, Participacion.es_correcta p = 1) l)
    ≤ foldr Z.add 0 (Participacion.puntaje_obtenido <$> l)
    ≤ 3 * len (filter (λ p, Participacion.es_correcta p = 1) l).
Proof.
  unfold len. induction 1 as [|p l Hp _ IH]; [simpl; lia|].
  rewrite filter_cons, fmap_cons.
  change (foldr Z.add 0 (Participacion.puntaje_obtenido p
                         :: (Participacion.puntaje_obtenido <$> l)))
    with (Participacion.puntaje_obtenido p
          + foldr Z.add 0 (Participacion.puntaje_obtenido <$> l)).
  case_decide; simpl length; lia.
Qed.

(** What [obtener_puntaje_usuario] returns once its two ids have bound, and
    what it raises when one of them has not. *)
Lemma obtener_puntaje_usuario_enlaza trivia_id usuario_id db :
  enlaza_trivia db trivia_id → enlaza_usuario db usuario_id →
  obtener_puntaje_usuario trivia_id usuario_id db
  = Return
      (Puntaje.Build usuario_id trivia_id
         (puntos_de db trivia_id usuario_id)
         (len (filter (λ p, Participacion.trivia_id p = trivia_id
                            ∧ Participacion.usuario_id p = usuario_id)
                      (participaciones db)))
         (sum ((λ _, 1) <$>
                 filter (λ p, Participacion.es_correcta p = 1)
                        (filter (λ p, Participacion.trivia_id p = trivia_id
                                      ∧ Participacion.usuario_id p = usuario_id)
                                (participaciones db))))).
Proof.
  intros Ht Hu. unfold obtener_puntaje_usuario.
  by rewrite decide_False by (intros Hn; by apply Hn).
Qed.

Lemma obtener_puntaje_usuario_no_enlaza trivia_id usuario_id db :
  ¬ (enlaza_trivia db trivia_id ∧ enlaza_usuario db usuario_id) →
  obtener_puntaje_usuario trivia_id usuario_id db = Raise OverflowError.
Proof. intros Hn. unfold obtener_puntaje_usuario. by rewrite decide_True. Qed.

Lemma obtener_puntaje_usuario_Return trivia_id usuario_id db r :
  obtener_puntaje_usuario trivia_id usuario_id db = Return r →
  enlaza_trivia db trivia_id ∧ enlaza_usuario db usuario_id
  ∧ r = Puntaje.Build usuario_id trivia_id
          (puntos_de db trivia_id usuario_id)
          (len (filter (λ p, Participacion.trivia_id p = trivia_id
                             ∧ Participacion.usuario_id p = usuario_id)
                       (participaciones db)))
          (sum ((λ _, 1) <$>
                  filter (λ p, Participacion.es_correcta p = 1)
                         (filter (λ p, Participacion.trivia_id p = trivia_id
                                       ∧ Participacion.usuario_id p = usuario_id)
                                 (participaciones db)))).
Proof.
  intros Hr.
  destruct (decide (enlaza_trivia db trivia_id ∧ enlaza_usuario db usuario_id))
    as [[Ht Hu]|Hn].
  - rewrite obtener_puntaje_usuario_enlaza in Hr by done. by injection Hr as <-.
  - by rewrite obtener_puntaje_usuario_no_enlaza in Hr.
Qed.

(** X10: In every database reached through the requests a score that
    [obtener_puntaje_usuario] returns is consistent: the correct answers are
    at most the answers, and the total is at least one point and at most
    three points per correct answer. *)
Theorem obtener_puntaje_usuario_cotas trivia_id usuario_id db r :
  alcanzable db →
  obtener_puntaje_usuario trivia_id usuario_id db = Return r →
  0 ≤ Puntaje.respuestas_correctas r ≤ Puntaje.total_respuestas r
  ∧ Puntaje.respuestas_correctas r ≤ Puntaje.puntaje_total r
    ≤ 3 * Puntaje.respuestas_correctas r.
Proof.
  intros Hdb%alcanzable_integra (_ & _ & ->)%obtener_puntaje_usuario_Return.
  cbn [Puntaje.respuestas_correctas Puntaje.total_respuestas Puntaje.puntaje_total].
  unfold puntos_de. rewrite !sum_unos, sum_foldr. apply cotas_filas, Forall_forall.
  intros p [_ Hp]%list_elem_of_filter. by apply (participacion_rango db).
Qed.

Lemma obtener_puntaje_usuario_cotas_witness :
  alcanzable ej_db
  ∧ obtener_puntaje_usuario 1 1 ej_db = Return (Puntaje.Build 1 1 3 2 1)
  ∧ 0 ≤ 1 ≤ 2 ∧ 1 ≤ 3 ≤ 3 * 1.
Proof.
  assert (Hr : obtener_puntaje_usuario 1 1 ej_db = Return (Puntaje.Build 1 1 3 2 1))
    by (vm_compute; reflexivity).
  split; [exact alcanzable_ej_db|]. split; [exact Hr|].
  exact (obtener_puntaje_usuario_cotas 1 1 ej_db _ alcanzable_ej_db Hr).
Defined.

(** X11: In every database reached through the requests a user who is not
    assigned to a trivia (a trivia or a user that does not exist included)
    has no score there but the all-zero one, which is returned whenever
    both ids fit in a signed 64-bit integer: participations are only stored
    for assigned users. *)
Theorem obtener_puntaje_usuario_no_asignado trivia_id usuario_id db :
  alcanzable db →
  ¬ usuario_asignado db trivia_id usuario_id →
  (cabe trivia_id → cabe usuario_id →
     obtener_puntaje_usuario trivia_id usuario_id db
     = Return (Puntaje.Build usuario_id trivia_id 0 0 0))
  ∧ (∀ r, obtener_puntaje_usuario trivia_id usuario_id db = Return r →
          r = Puntaje.Build usuario_id trivia_id 0 0 0).
Proof.
  intros [_ _ _ Hfk _]%alcanzable_integra Hno.
  assert (Hnil : filter (λ p, Participacion.trivia_id p = trivia_id
                              ∧ Participacion.usuario_id p = usuario_id)
                        (participaciones db) = []).
  { apply head_None, first_None. intros p Hp [Ht Hu].
    destruct (Hfk p Hp) as [Ha _]. by rewrite Ht, Hu in Ha. }
  split.
  - intros Ht Hu. rewrite obtener_puntaje_usuario_enlaza by (by left).
    unfold puntos_de. by rewrite Hnil.
  - intros r (_ & _ & ->)%obtener_puntaje_usuario_Return.
    unfold puntos_de. by rewrite Hnil.
Qed.

Lemma obtener_puntaje_usuario_no_asignado_witness :
  alcanzable ej_db
  ∧ ¬ usuario_asignado ej_db 1 8
  ∧ cabe 1 ∧ cabe 8
  ∧ obtener_puntaje_usuario 1 8 ej_db = Return (Puntaje.Build 8 1 0 0 0).
Proof.
  assert (Hno : ¬ usuario_asignado ej_db 1 8).
  { intros Ha.
    apply (first_is_Some (λ a, TriviaUsuario.trivia_id a = 1
                               ∧ TriviaUsuario.usuario_id a = 8)) in Ha.
    vm_compute in Ha. by destruct Ha. }
  assert (C1 : cabe 1) by decidir.
  assert (C8 : cabe 8) by decidir.
  split; [exact alcanzable_ej_db|]. split; [exact Hno|].
  split; [exact C1|]. split; [exact C8|].
  destruct (obtener_puntaje_usuario_no_asignado 1 8 ej_db alcanzable_ej_db Hno)
    as [Hcero _].
  exact (Hcero C1 C8).
Defined.

Lemma respondidas_NoDup (filas : list Participacion.t) (trivia_id usuario_id : Z) :
  NoDup ((λ p, (Participacion.usuario_id p, Participacion.trivia_id p,
                Participacion.pregunta_id p)) <$> filas) →
  NoDup (Participacion.pregunta_id <$>
           filter (λ p, Participacion.trivia_id p = trivia_id
                        ∧ Participacion.usuario_id p = usuario_id) filas).
Proof.
  induction filas as [|p filas IH]; [constructor|].
  rewrite fmap_cons, NoDup_cons. intros [Hp Hnd].
  rewrite filter_cons. case_decide as Hid; [|by apply IH].
  destruct Hid as [Ht Hu].
  rewrite fmap_cons. apply NoDup_cons. split; [|by apply IH].
  intros (p' & Hq & [[Ht' Hu'] Hin]%list_elem_of_filter)%list_elem_of_fmap.
  apply Hp, list_elem_of_fmap. exists p'. split; [|done].
  by rewrite Hq, Ht, Hu, Ht', Hu'.
Qed.

(** X12: In every database reached through the requests the number of
    answers in a score that [obtener_puntaje_usuario] returns for a user in
    a trivia is at most the number of questions linked to the trivia. *)
Theorem total_respuestas_acotado trivia_id usuario_id db r :
  alcanzable db →
  obtener_puntaje_usuario trivia_id usuario_id db = Return r →
  Puntaje.total_respuestas r
  ≤ len (filter (λ tp, TriviaPregunta.trivia_id tp = trivia_id) (trivia_preguntas db)).
Proof.
  intros Hdb (_ & _ & ->)%obtener_puntaje_usuario_Return.
  pose proof (alcanzable_integra db Hdb) as [_ _ _ Hfk _].
  pose proof (alcanzable_consistente db Hdb) as [_ _ _ _ _ _ Hnd].
  cbn [Puntaje.total_respuestas]. unfold len. apply inj_le.
  rewrite <- (length_fmap Participacion.pregunta_id),
    <- (length_fmap TriviaPregunta.pregunta_id (filter _ (trivia_preguntas db))).
  apply submseteq_length, NoDup_submseteq; [by apply respondidas_NoDup|].
  intros k (p & -> & [[Ht Hu] Hp]%list_elem_of_filter)%list_elem_of_fmap.
  destruct (Hfk p Hp) as [_ (tp & Htp & Htid & Hqid)].
  apply list_elem_of_fmap. exists tp. split; [done|].
  apply list_elem_of_filter. split; [congruence|done].
Qed.

Lemma total_respuestas_acotado_witness :
  alcanzable ej_db
  ∧ obtener_puntaje_usuario 1 1 ej_db = Return (Puntaje.Build 1 1 3 2 1)
  ∧ 2 ≤ len (filter (λ tp, TriviaPregunta.trivia_id tp = 1) (trivia_preguntas ej_db)).
Proof.
  assert (Hr : obtener_puntaje_usuario 1 1 ej_db = Return (Puntaje.Build 1 1 3 2 1))
    by (vm_compute; reflexivity).
  split; [exact alcanzable_ej_db|]. split; [exact Hr|].
  exact (total_respuestas_acotado 1 1 ej_db _ alcanzable_ej_db Hr).
Defined.

(** X13: An accepted answer adds exactly itself to the score of its user in its
    trivia: one more answer, its points, and one more correct answer when it
    is correct; every other score is as it was. *)
Theorem responder_pregunta_suma trivia_id participacion ahora db r db' :
  responder_pregunta trivia_id participacion ahora db = (Return r, db') →
  let usuario_id := ParticipacionCreate.usuario_id participacion in
  (∃ antes,
     obtener_puntaje_usuario trivia_id usuario_id db = Return antes
     ∧ obtener_puntaje_usuario trivia_id usuario_id db'
       = Return (Puntaje.Build usuario_id trivia_id
                   (Puntaje.puntaje_total antes + Participacion.puntaje_obtenido r)
                   (Puntaje.total_respuestas antes + 1)
                   (Puntaje.respuestas_correctas antes + Participacion.es_correcta r)))
  ∧ (∀ otra_trivia otro_usuario,
       ¬ (otra_trivia = trivia_id ∧ otro_usuario = usuario_id) →
       obtener_puntaje_usuario otra_trivia otro_usuario db'
       = obtener_puntaje_usuario otra_trivia otro_usuario db).
Proof.
  intros H usuario_id.
  pose proof (responder_pregunta_Return_enlaza _ _ _ _ _ _ H) as (Het & Heu & _).
  apply responder_pregunta_Return in H as (q & _ & _ & Hr & ->).
  assert (Ht : Participacion.trivia_id r = trivia_id) by by rewrite Hr.
  assert (Hu : Participacion.usuario_id r = usuario_id) by by rewrite Hr.
  assert (Hes : Participacion.es_correcta r = 1 ∨ Participacion.es_correcta r = 0).
  { rewrite Hr. simpl. case_decide; auto. }
  split.
  - eexists. split; [by apply obtener_puntaje_usuario_enlaza|].
    rewrite (obtener_puntaje_usuario_enlaza trivia_id usuario_id
               (add_participacion (λ _, r) db).2 Het Heu).
    unfold puntos_de. cbn [snd add_participacion participaciones].
    cbn [Puntaje.respuestas_correctas Puntaje.total_respuestas Puntaje.puntaje_total].
    rewrite filter_app, (filter_cons _ r), decide_True, filter_nil by done.
    rewrite !sum_unos, filter_app, fmap_app.
    change (Participacion.puntaje_obtenido <$> [r])
      with [Participacion.puntaje_obtenido r].
    rewrite sum_snoc, (filter_cons _ r), filter_nil. unfold len.
    do 2 f_equal.
    + rewrite length_app. simpl. lia.
    + destruct Hes as [Hes|Hes]; rewrite Hes.
      * rewrite decide_True by done. rewrite length_app. simpl. lia.
      * rewrite decide_False by lia. rewrite app_nil_r. lia.
  - intros otra_trivia otro_usuario Hotro.
    destruct (decide (enlaza_trivia db otra_trivia ∧ enlaza_usuario db otro_usuario))
      as [[Hot Hou]|Hn].
    + rewrite (obtener_puntaje_usuario_enlaza otra_trivia otro_usuario db Hot Hou),
        (obtener_puntaje_usuario_enlaza otra_trivia otro_usuario
           (add_participacion (λ _, r) db).2 Hot Hou).
      unfold puntos_de. cbn [snd add_participacion participaciones].
      rewrite filter_app, (filter_cons _ r), decide_False, filter_nil, app_nil_r; [done|].
      rewrite Ht, Hu. intros [? ?]. by apply Hotro.
    + rewrite (obtener_puntaje_usuario_no_enlaza otra_trivia otro_usuario db Hn).
      by apply (obtener_puntaje_usuario_no_enlaza otra_trivia otro_usuario
                  (add_participacion (λ _, r) db).2).
Qed.

Lemma responder_pregunta_suma_witness :
  responder_pregunta 1 ej_respuesta 105 ej_db = (Return ej_participacion, ej_db')
  ∧ obtener_puntaje_usuario 1 2 ej_db = Return (Puntaje.Build 2 1 2 1 1)
  ∧ obtener_puntaje_usuario 1 2 ej_db' = Return (Puntaje.Build 2 1 5 2 2).
Proof.
  assert (Hr : responder_pregunta 1 ej_respuesta 105 ej_db
               = (Return ej_participacion, ej_db')) by (vm_compute; reflexivity).
  split; [exact Hr|].
  destruct (responder_pregunta_suma 1 ej_respuesta 105 ej_db ej_participacion ej_db' Hr)
    as [(antes & Hantes & Hdespues) _].
  split; [vm_compute; reflexivity|].
  change (ParticipacionCreate.usuario_id ej_respuesta) with 2 in Hantes, Hdespues.
  rewrite Hdespues. vm_compute in Hantes. injection Hantes as <-. vm_compute. reflexivity.
Defined.

(** ** Submissions that are accepted *)

(** X14: In every database reached through the requests a submission that
    passes the four validations is accepted: the question it names is
    stored, so the handler returns the new participation, with the user,
    question and answer of the request, the trivia of the path and an id no
    participation has, appended to [participaciones]. *)
Theorem responder_pregunta_acepta trivia_id participacion ahora db :
  alcanzable db →
  existe_trivia db trivia_id →
  usuario_asignado db trivia_id (ParticipacionCreate.usuario_id participacion) →
  pregunta_en_trivia db trivia_id (ParticipacionCreate.pregunta_id participacion) →
  ¬ ya_respondida db (ParticipacionCreate.usuario_id participacion) trivia_id
      (ParticipacionCreate.pregunta_id participacion) →
  ∃ r db',
    responder_pregunta trivia_id participacion ahora db = (Return r, db')
    ∧ Participacion.usuario_id r = ParticipacionCreate.usuario_id participacion
    ∧ Participacion.trivia_id r = trivia_id
    ∧ Participacion.pregunta_id r = ParticipacionCreate.pregunta_id participacion
    ∧ Participacion.respuesta_dada r = ParticipacionCreate.respuesta_dada participacion
    ∧ Participacion.fecha_respuesta r = ahora
    ∧ (Participacion.id r ∉ (Participacion.id <$> participaciones db))
    ∧ participaciones db' = participaciones db ++ [r].
Proof.
  intros [_ _ _ Hfkq Hfku _ _]%alcanzable_consistente Ht Ha Hen Hno.
  assert (Het : enlaza_trivia db trivia_id) by by apply existe_trivia_enlaza.
  assert (Heu : enlaza_usuario db (ParticipacionCreate.usuario_id participacion)).
  { destruct Ha as (a & Ha & _ & <-). right. by apply Hfku. }
  assert (Heq : enlaza_pregunta db (ParticipacionCreate.pregunta_id participacion)).
  { destruct Hen as (tp & Htp & _ & <-). right. by apply Hfkq. }
  destruct (responder_pregunta trivia_id participacion ahora db) as [[r|e] db'] eqn:E.
  - exists r, db'. split; [done|].
    apply responder_pregunta_Return in E as (q & _ & _ & -> & ->). simpl.
    repeat split; try done. apply nuevo_id_fresco.
  - exfalso. unfold responder_pregunta in E.
    destruct (decide (¬ enlaza_trivia db trivia_id)); [done|].
    destruct (head (filter _ (trivias db))) eqn:E1.
    2: { rewrite first_None in E1. destruct Ht as (t & ? & ?). by eapply E1. }
    destruct (decide (¬ enlaza_usuario db _)); [done|].
    destruct (head (filter _ (trivia_usuarios db))) eqn:E2.
    2: { rewrite first_None in E2. destruct Ha as (a & ? & ?). by eapply E2. }
    destruct (decide (¬ enlaza_pregunta db _)); [done|].
    destruct (head (filter _ (trivia_preguntas db))) eqn:E3.
    2: { rewrite first_None in E3. destruct Hen as (tp & ? & ?). by eapply E3. }
    destruct (head (filter _ (participaciones db))) as [p|] eqn:E4.
    { apply first_Some in E4 as (? & ? & ? & ?). apply Hno. by exists p. }
    destruct (head (filter _ (preguntas db))) eqn:E5; [simpl in E; discriminate E|].
    rewrite first_None in E5. destruct Hen as (tp & Htp & _ & Hqid).
    destruct (Hfkq tp Htp) as [_ (q & Hid & Hq)%list_elem_of_fmap].
    apply (E5 q Hq). congruence.
Qed.

Lemma responder_pregunta_acepta_witness :
  alcanzable ej_db
  ∧ existe_trivia ej_db 1
  ∧ usuario_asignado ej_db 1 2
  ∧ pregunta_en_trivia ej_db 1 2
  ∧ ¬ ya_respondida ej_db 2 1 2
  ∧ ∃ r db', responder_pregunta 1 ej_respuesta 105 ej_db = (Return r, db')
      ∧ participaciones db' = participaciones ej_db ++ [r].
Proof.
  assert (H1 : existe_trivia ej_db 1).
  { apply (first_is_Some (λ t, Trivia.id t = 1)). vm_compute. by eexists. }
  assert (H2 : usuario_asignado ej_db 1 2).
  { apply (first_is_Some (λ a, TriviaUsuario.trivia_id a = 1
                               ∧ TriviaUsuario.usuario_id a = 2)).
    vm_compute. by eexists. }
  assert (H3 : pregunta_en_trivia ej_db 1 2).
  { apply (first_is_Some (λ tp, TriviaPregunta.trivia_id tp = 1
                                ∧ TriviaPregunta.pregunta_id tp = 2)).
    vm_compute. by eexists. }
  assert (H4 : ¬ ya_respondida ej_db 2 1 2).
  { intros H.
    apply (first_is_Some (λ p, Participacion.usuario_id p = 2
                               ∧ Participacion.trivia_id p = 1
                               ∧ Participacion.pregunta_id p = 2)) in H.
    vm_compute in H. by destruct H. }
  split; [exact alcanzable_ej_db|]. do 4 (split; [assumption|]).
  destruct (responder_pregunta_acepta 1 ej_respuesta 105 ej_db alcanzable_ej_db
              H1 H2 H3 H4) as (r & db' & Heq & _ & _ & _ & _ & _ & _ & Hps).
  by exists r, db'.
Defined.

(** ** The shape of a ranking *)

Lemma first_enlaza_trivia db trivia_id t :
  head (filter (λ t, Trivia.id t = trivia_id) (trivias db)) = Some t →
  enlaza_trivia db trivia_id.
Proof. intros [Ht <-]%first_Some. right. by apply list_elem_of_fmap_2. Qed.

(** When every assignment names a stored user, the ranking of a trivia that
    is found is the enumeration from 1 of the stably sorted items, one per
    assignment of the trivia and in their order before sorting, each with
    the points of its user. *)
Lemma obtener_ranking_forma trivia_id db t :
  (∀ a, a ∈ trivia_usuarios db →
        TriviaUsuario.usuario_id a ∈ (Usuario.id <$> usuarios db)) →
  head (filter (λ t, Trivia.id t = trivia_id) (trivias db)) = Some t →
  ∃ items,
    obtener_ranking trivia_id db
    = Return (RankingResponse.Build trivia_id (Trivia.nombre t)
                ((λ '(posicion, item),
                    RankingItem.Build posicion (item_usuario_id item)
                      (item_usuario_nombre item) (item_puntaje_total item))
                   <$> enumerate 1 (sort_reverse item_puntaje_total items)))
    ∧ item_usuario_id <$> items
      = TriviaUsuario.usuario_id <$>
          filter (λ a, TriviaUsuario.trivia_id a = trivia_id) (trivia_usuarios db)
    ∧ Forall (λ item, item_puntaje_total item
                      = puntos_de db trivia_id (item_usuario_id item)) items.
Proof.
  intros Hfk Ht. unfold obtener_ranking.
  rewrite decide_False by (intros Hn; by apply Hn, (first_enlaza_trivia db trivia_id t)).
  rewrite Ht.
  destruct (ranking_items_Return trivia_id db
              (filter (λ a, TriviaUsuario.trivia_id a = trivia_id) (trivia_usuarios db)) [])
    as (items & -> & Hids & Hitems).
  { intros a [_ Ha]%list_elem_of_filter. by apply Hfk. }
  exists items. rewrite app_nil_l, ranking_final_fmap, app_nil_l.
  split; [done|]. split; [done|].
  eapply Forall_impl; [exact Hitems|]. by intros item [? _].
Qed.

Lemma obtener_ranking_Return_trivia trivia_id db r :
  obtener_ranking trivia_id db = Return r →
  ∃ t, head (filter (λ t, Trivia.id t = trivia_id) (trivias db)) = Some t.
Proof.
  unfold obtener_ranking. case_decide; [discriminate|].
  destruct (head _) as [t|]; [by exists t|discriminate].
Qed.

(** The user ids of the ranking entries that have [k] points, read off the
    items before they are numbered. *)
Lemma ranking_final_filter (l : list (Z * Item)) (k : Z) :
  RankingItem.usuario_id <$>
    filter (λ it, RankingItem.puntaje_total it = k)
           ((λ '(posicion, item),
               RankingItem.Build posicion (item_usuario_id item)
                 (item_usuario_nombre item) (item_puntaje_total item)) <$> l)
  = item_usuario_id <$> filter (λ item, item_puntaje_total item = k) l.*2.
Proof.
  induction l as [|[posicion item] l IH]; [done|].
  rewrite !fmap_cons, !filter_cons. cbn [snd RankingItem.puntaje_total].
  case_decide; [|done]. rewrite !fmap_cons. cbn [RankingItem.usuario_id]. by f_equal.
Qed.

Lemma items_filter (puntos : Z → Z) (items : list Item) (k : Z) :
  Forall (λ item, item_puntaje_total item = puntos (item_usuario_id item)) items →
  item_usuario_id <$> filter (λ item, item_puntaje_total item = k) items
  = filter (λ u, puntos u = k) (item_usuario_id <$> items).
Proof.
  induction 1 as [|item items Hitem _ IH]; [done|].
  rewrite fmap_cons, !filter_cons, <- Hitem.
  case_decide; [|done]. rewrite fmap_cons. by f_equal.
Qed.

Lemma obtener_ranking_empates_aux trivia_id db r :
  (∀ a, a ∈ trivia_usuarios db →
        TriviaUsuario.usuario_id a ∈ (Usuario.id <$> usuarios db)) →
  obtener_ranking trivia_id db = Return r →
  ∀ k, RankingItem.usuario_id <$>
         filter (λ it, RankingItem.puntaje_total it = k) (RankingResponse.ranking r)
       = filter (λ u, puntos_de db trivia_id u = k)
                (TriviaUsuario.usuario_id <$>
                   filter (λ a, TriviaUsuario.trivia_id a = trivia_id)
                          (trivia_usuarios db)).
Proof.
  intros Hfk Hr k.
  destruct (obtener_ranking_Return_trivia _ _ _ Hr) as [t Ht].
  destruct (obtener_ranking_forma trivia_id db t Hfk Ht) as (items & Heq & Hids & Hitems).
  rewrite Heq in Hr. injection Hr as <-. cbn [RankingResponse.ranking].
  rewrite ranking_final_filter, enumerate_snd, sort_reverse_stable, <- Hids.
  by apply items_filter.
Qed.

(** X15: In every database reached through the requests the ranking breaks ties
    by assignment: the users that have the same points appear in the
    ranking in the order of their rows in [trivia_usuarios], which is the
    order of [usuario_ids] when the trivia was created. *)
Theorem obtener_ranking_empates trivia_id db r :
  alcanzable db →
  obtener_ranking trivia_id db = Return r →
  ∀ k, RankingItem.usuario_id <$>
         filter (λ it, RankingItem.puntaje_total it = k) (RankingResponse.ranking r)
       = filter (λ u, puntos_de db trivia_id u = k)
                (TriviaUsuario.usuario_id <$>
                   filter (λ a, TriviaUsuario.trivia_id a = trivia_id)
                          (trivia_usuarios db)).
Proof.
  intros [_ _ _ _ Hfk _ _]%alcanzable_consistente.
  apply obtener_ranking_empates_aux. intros a Ha. by apply Hfk.
Qed.

Lemma obtener_ranking_empates_witness :
  alcanzable ej_db
  ∧ obtener_ranking 1 ej_db
    = Return (RankingResponse.Build 1 "RRHH"
                [RankingItem.Build 1 1 "Ana" 3;
                 RankingItem.Build 2 2 "Beto" 2;
                 RankingItem.Build 3 3 "Caro" 2])
  ∧ filter (λ u, puntos_de ej_db 1 u = 2)
           (TriviaUsuario.usuario_id <$>
              filter (λ a, TriviaUsuario.trivia_id a = 1) (trivia_usuarios ej_db))
    = [2; 3].
Proof.
  assert (Hr : obtener_ranking 1 ej_db
               = Return (RankingResponse.Build 1 "RRHH"
                           [RankingItem.Build 1 1 "Ana" 3;
                            RankingItem.Build 2 2 "Beto" 2;
                            RankingItem.Build 3 3 "Caro" 2]))
    by (vm_compute; reflexivity).
  split; [exact alcanzable_ej_db|]. split; [exact Hr|].
  rewrite <- (obtener_ranking_empates 1 ej_db _ alcanzable_ej_db Hr 2).
  vm_compute. reflexivity.
Defined.

(** X16: In every database reached through the requests the ranking and the
    score of one user agree: each entry of a ranking carries the total that
    [obtener_puntaje_usuario] returns for its user in that trivia. *)
Theorem ranking_coincide_con_puntaje trivia_id db r :
  alcanzable db →
  obtener_ranking trivia_id db = Return r →
  ∀ it, it ∈ RankingResponse.ranking r →
    ∃ s, obtener_puntaje_usuario trivia_id (RankingItem.usuario_id it) db = Return s
      ∧ Puntaje.puntaje_total s = RankingItem.puntaje_total it.
Proof.
  intros [_ _ _ _ Hfk _ _]%alcanzable_consistente Hr it Hit.
  destruct (obtener_ranking_Return_trivia _ _ _ Hr) as [t Ht].
  destruct (obtener_ranking_forma trivia_id db t) as (items & Heq & Hids & Hitems);
    [intros a Ha; by apply Hfk|done|].
  rewrite Heq in Hr. injection Hr as <-. cbn [RankingResponse.ranking] in Hit.
  destruct (ranking_final_campos (enumerate 1 (sort_reverse item_puntaje_total items)))
    as (_ & _ & _ & Hin).
  destruct (Hin it Hit) as (item & Hitem & Hu & _ & Hp).
  rewrite enumerate_snd, sort_reverse_Permutation in Hitem.
  assert (Heu : enlaza_usuario db (RankingItem.usuario_id it)).
  { right. rewrite Hu.
    assert (Hi : item_usuario_id item ∈ item_usuario_id <$> items)
      by by apply list_elem_of_fmap_2.
    rewrite Hids in Hi.
    apply list_elem_of_fmap in Hi as (a & -> & [_ Ha]%list_elem_of_filter).
    by apply Hfk. }
  rewrite Forall_forall in Hitems. eexists.
  split; [apply obtener_puntaje_usuario_enlaza;
          [by apply (first_enlaza_trivia db trivia_id t)|done]|].
  cbn [Puntaje.puntaje_total]. rewrite Hp, Hu. symmetry. by apply Hitems.
Qed.

Lemma ranking_coincide_con_puntaje_witness :
  alcanzable ej_db
  ∧ obtener_ranking 1 ej_db
    = Return (RankingResponse.Build 1 "RRHH"
                [RankingItem.Build 1 1 "Ana" 3;
                 RankingItem.Build 2 2 "Beto" 2;
                 RankingItem.Build 3 3 "Caro" 2])
  ∧ ∃ s, obtener_puntaje_usuario 1 3 ej_db = Return s ∧ Puntaje.puntaje_total s = 2.
Proof.
  assert (Hr : obtener_ranking 1 ej_db
               = Return (RankingResponse.Build 1 "RRHH"
                           [RankingItem.Build 1 1 "Ana" 3;
                            RankingItem.Build 2 2 "Beto" 2;
                            RankingItem.Build 3 3 "Caro" 2]))
    by (vm_compute; reflexivity).
  split; [exact alcanzable_ej_db|]. split; [exact Hr|].
  apply (ranking_coincide_con_puntaje 1 ej_db _ alcanzable_ej_db Hr
           (RankingItem.Build 3 3 "Caro" 2)).
  cbn [RankingResponse.ranking]. right. right. left.
Defined.

(** ** A trivia just created *)

Lemma filter_nuevas {A} (P : A → Prop) `{!∀ x, Decision (P x)} (viejas nuevas : list A) :
  (∀ a, a ∈ viejas → ¬ P a) → (∀ a, a ∈ nuevas → P a) →
  filter P (viejas ++ nuevas) = nuevas.
Proof.
  intros Hv Hn. rewrite filter_app.
  replace (filter P viejas) with (@nil A)
    by (symmetry; by apply head_None, first_None).
  simpl. induction nuevas as [|a nuevas IH]; [done|].
  rewrite filter_cons, decide_True by (apply Hn; left).
  f_equal. apply IH. intros b Hb. apply Hn. by right.
Qed.

Lemma pares_nuevos {A} (f g : A → Z) (c : Z) (filas : list A) (ids : list Z) :
  (λ a, (f a, g a)) <$> filas = (λ i, (c, i)) <$> ids →
  g <$> filas = ids ∧ ∀ a, a ∈ filas → f a = c.
Proof.
  revert ids. induction filas as [|a filas IH]; intros [|i ids] Heq;
    try discriminate Heq.
  - split; [done|]. by intros a ?%elem_of_nil.
  - rewrite !fmap_cons in Heq. injection Heq as Hf Hg Heq.
    destruct (IH ids Heq) as [IH1 IH2]. split.
    + by rewrite fmap_cons, Hg, IH1.
    + intros b [->|Hb]%elem_of_cons; auto.
Qed.

(** What a successful [crear_trivia] leaves in a database that kept its
    keys: the new trivia is the one found under its id, and the links of
    that id are the new ones, one per listed id and in the order of the
    lists. *)
Lemma crear_trivia_enlaces trivia ahora db t db' :
  consistente db →
  crear_trivia trivia ahora db = (Return t, db') →
  Trivia.nombre t = TriviaCreate.nombre trivia
  ∧ (Trivia.id t ∉ (Trivia.id <$> trivias db))
  ∧ head (filter (λ t', Trivia.id t' = Trivia.id t) (trivias db')) = Some t
  ∧ usuarios db' = usuarios db
  ∧ preguntas db' = preguntas db
  ∧ participaciones db' = participaciones db
  ∧ (∀ i, i ∈ TriviaCreate.pregunta_ids trivia → i ∈ (Pregunta.id <$> preguntas db))
  ∧ TriviaPregunta.pregunta_id <$>
      filter (λ tp, TriviaPregunta.trivia_id tp = Trivia.id t) (trivia_preguntas db')
    = TriviaCreate.pregunta_ids trivia
  ∧ TriviaUsuario.usuario_id <$>
      filter (λ a, TriviaUsuario.trivia_id a = Trivia.id t) (trivia_usuarios db')
    = TriviaCreate.usuario_ids trivia.
Proof.
  intros [Hpku Hpkq Hpkt Hfkq Hfku _ _] E.
  apply crear_trivia_Return in E
    as (Hlq & _ & Ht & Hus & Hqs & Hts & Hps & (fq & Htq & Hfq) & (fu & Htu & Hfu)).
  apply (in_len Pregunta.id) in Hlq as [_ Hqin]; [|done].
  assert (Hfresco : Trivia.id t ∉ (Trivia.id <$> trivias db)).
  { rewrite Ht. apply nuevo_id_fresco. }
  apply pares_nuevos in Hfq as [Hfq1 Hfq2]. apply pares_nuevos in Hfu as [Hfu1 Hfu2].
  split; [by rewrite Ht|]. split; [done|].
  split; [rewrite Hts; by apply (first_pk_nueva Trivia.id)|].
  do 4 (split; [done|]). split.
  - rewrite Htq, filter_nuevas; [done| |done].
    intros tp Htp Heq. apply Hfresco. rewrite <- Heq. by apply Hfkq.
  - rewrite Htu, filter_nuevas; [done| |done].
    intros a Ha Heq. apply Hfresco. rewrite <- Heq. by apply Hfku.
Qed.

Lemma omap_vista_jugador (tabla : list Pregunta.t) (tps : list TriviaPregunta.t) :
  (∀ tp, tp ∈ tps → TriviaPregunta.pregunta_id tp ∈ (Pregunta.id <$> tabla)) →
  ∃ qs,
    omap (λ tp, vista_jugador <$>
                  head (filter (λ p, Pregunta.id p = TriviaPregunta.pregunta_id tp) tabla))
         tps
    = vista_jugador <$> qs
    ∧ Pregunta.id <$> qs = TriviaPregunta.pregunta_id <$> tps
    ∧ ∀ q, q ∈ qs → q ∈ tabla.
Proof.
  induction tps as [|tp tps IH]; intros Hin.
  - exists []. split; [done|]. split; [done|]. by intros q ?%elem_of_nil.
  - destruct IH as (qs & Ho & Hids & Hqs); [intros tp' ?; apply Hin; by right|].
    assert (Hq : is_Some (head (filter (λ p, Pregunta.id p = TriviaPregunta.pregunta_id tp)
                                       tabla))).
    { apply first_is_Some.
      assert (Htp : tp ∈ tp :: tps) by left.
      apply Hin, list_elem_of_fmap in Htp as (q & Hid & Hq). by exists q. }
    destruct Hq as [q Hq]. exists (q :: qs). split.
    { rewrite fmap_cons, <- Ho. cbn [omap list_omap]. by rewrite Hq. }
    apply first_Some in Hq as [Hq Hid].
    split; [by rewrite !fmap_cons, Hid, Hids|].
    intros q' [->|Hq']%elem_of_cons; auto.
Qed.

(** X17: In every database reached through the requests, right after a trivia is
    created each user listed in [usuario_ids] is shown the views of the
    questions of [pregunta_ids], one per id and in the order of that list,
    and every other user whose id fits in a signed 64-bit integer gets the
    404 of a user that is not assigned. *)
Theorem crear_trivia_ver_trivia_jugador trivia ahora db t db' :
  alcanzable db →
  crear_trivia trivia ahora db = (Return t, db') →
  (∀ usuario_id, usuario_id ∈ TriviaCreate.usuario_ids trivia →
     ∃ qs, ver_trivia_jugador (Trivia.id t) usuario_id db' = Return (vista_jugador <$> qs)
       ∧ Pregunta.id <$> qs = TriviaCreate.pregunta_ids trivia
       ∧ ∀ q, q ∈ qs → q ∈ preguntas db)
  ∧ (∀ usuario_id, usuario_id ∉ TriviaCreate.usuario_ids trivia →
       cabe usuario_id →
       ver_trivia_jugador (Trivia.id t) usuario_id db'
       = Raise (HTTPException HTTP_404_NOT_FOUND
                  "El usuario no está asignado a esta trivia")).
Proof.
  intros Hdb%alcanzable_consistente E.
  destruct (crear_trivia_enlaces _ _ _ _ _ Hdb E)
    as (_ & _ & Hhead & Hus & Hqs & _ & Hqin & Hlq & Hlu).
  pose proof (crear_trivia_Return _ _ _ _ _ E) as (_ & Hlen & _).
  apply (in_len Usuario.id) in Hlen as [_ Huin]; [|by destruct Hdb].
  pose proof (first_enlaza_trivia _ _ _ Hhead) as Het.
  unfold ver_trivia_jugador. split.
  - intros usuario_id Hu.
    rewrite decide_False.
    2: { intros Hn. apply Hn. split; [done|]. right. rewrite Hus. by apply Huin. }
    rewrite <- Hlu in Hu.
    apply list_elem_of_fmap in Hu as (a & -> & [Htid Ha]%list_elem_of_filter).
    assert (Hsome : is_Some (head (filter
                      (λ a', TriviaUsuario.trivia_id a' = Trivia.id t
                             ∧ TriviaUsuario.usuario_id a' = TriviaUsuario.usuario_id a)
                      (trivia_usuarios db')))).
    { apply first_is_Some. by exists a. }
    destruct Hsome as [a' ->]. rewrite preguntas_jugador_omap, app_nil_l, Hqs.
    destruct (omap_vista_jugador (preguntas db)
                (filter (λ tp, TriviaPregunta.trivia_id tp = Trivia.id t)
                        (trivia_preguntas db'))) as (qs & -> & Hids & Hin).
    { intros tp Htp. apply Hqin. rewrite <- Hlq. by apply list_elem_of_fmap_2. }
    exists qs. split; [done|]. split; [by rewrite Hids|done].
  - intros usuario_id Hno Hcabe.
    rewrite decide_False by (intros Hn; apply Hn; split; [done|by left]).
    destruct (head (filter _ (trivia_usuarios db'))) as [a|] eqn:Ea; [|done].
    apply first_Some in Ea as (Ha & Htid & Huid). destruct Hno.
    rewrite <- Hlu, <- Huid. by apply list_elem_of_fmap_2, list_elem_of_filter.
Qed.

Lemma crear_trivia_ver_trivia_jugador_witness :
  alcanzable ej_db
  ∧ (∃ t db',
       crear_trivia (TriviaCreate.Build "Otra" None [3; 1] [2]) 200 ej_db = (Return t, db')
       ∧ 2 ∈ [2]
       ∧ (∃ qs, ver_trivia_jugador (Trivia.id t) 2 db' = Return (vista_jugador <$> qs)
            ∧ Pregunta.id <$> qs = [3; 1])
       ∧ (3 ∉ [2]) ∧ cabe 3
       ∧ ver_trivia_jugador (Trivia.id t) 3 db'
         = Raise (HTTPException HTTP_404_NOT_FOUND
                    "El usuario no está asignado a esta trivia")).
Proof.
  split; [exact alcanzable_ej_db|].
  destruct (crear_trivia (TriviaCreate.Build "Otra" None [3; 1] [2]) 200 ej_db)
    as [[t|e] db'] eqn:E; [|vm_compute in E; discriminate E].
  assert (H3 : 3 ∉ [2]) by decidir.
  assert (C3 : cabe 3) by decidir.
  exists t, db'. split; [done|]. split; [left|].
  destruct (crear_trivia_ver_trivia_jugador _ _ _ _ _ alcanzable_ej_db E) as [Hsi Hno].
  split.
  - destruct (Hsi 2) as (qs & Hv & Hids & _); [left|]. by exists qs.
  - split; [exact H3|]. split; [exact C3|]. exact (Hno 3 H3 C3).
Defined.

Lemma sort_reverse_iguales {A} (key : A → Z) (c : Z) (l : list A) :
  Forall (λ x, key x = c) l → sort_reverse key l = l.
Proof.
  induction 1 as [|x l Hx Hl IH]; [done|]. simpl. rewrite IH.
  destruct Hl as [|y l Hy _]; [done|]. simpl.
  rewrite decide_False by lia. done.
Qed.

(** X18: In every database reached through the requests, right after a trivia is
    created its ranking lists the users of [usuario_ids] in the order of
    that list, each with 0 points, at positions 1, 2, ..., N. *)
Theorem crear_trivia_ranking trivia ahora db t db' :
  alcanzable db →
  crear_trivia trivia ahora db = (Return t, db') →
  ∃ ranking,
    obtener_ranking (Trivia.id t) db'
    = Return (RankingResponse.Build (Trivia.id t) (TriviaCreate.nombre trivia) ranking)
    ∧ RankingItem.usuario_id <$> ranking = TriviaCreate.usuario_ids trivia
    ∧ (∀ it, it ∈ ranking → RankingItem.puntaje_total it = 0)
    ∧ RankingItem.posicion <$> ranking
      = Z.of_nat <$> seq 1 (length (TriviaCreate.usuario_ids trivia)).
Proof.
  intros Hdb E.
  pose proof (alcanzable_consistente db Hdb) as Hc.
  pose proof (alcanzable_integra db Hdb) as [_ _ _ Hfkp _].
  destruct (crear_trivia_enlaces _ _ _ _ _ Hc E)
    as (Hnombre & Hfresco & Ht & _ & _ & Hps & _ & _ & Hlu).
  assert (Hdb' : alcanzable db').
  { replace db' with (atender (POST_trivias trivia ahora) db)
      by (simpl; by rewrite E).
    by constructor. }
  pose proof (alcanzable_consistente db' Hdb') as [_ _ _ _ Hfk' _ _].
  destruct (obtener_ranking_forma (Trivia.id t) db' t) as (items & -> & Hids & Hitems);
    [intros a Ha; by apply Hfk'|done|].
  assert (Hcero : Forall (λ item, item_puntaje_total item = 0) items).
  { eapply Forall_impl; [exact Hitems|]. intros item ->. unfold puntos_de.
    replace (filter _ (participaciones db')) with (@nil Participacion.t); [done|].
    symmetry. apply head_None, first_None. rewrite Hps. intros p Hp [Htid _].
    destruct (Hfkp p Hp) as [(a & Ha & Hta & _) _].
    destruct Hc as [_ _ _ _ Hfku _ _]. apply Hfresco.
    rewrite <- Htid, <- Hta. by apply Hfku. }
  rewrite (sort_reverse_iguales _ 0) by done.
  destruct (ranking_final_campos (enumerate 1 items)) as (Hpos & Huid & _ & Hin).
  eexists. split; [by rewrite Hnombre|].
  split; [by rewrite Huid, enumerate_snd, Hids, Hlu|]. split.
  - intros it Hit. destruct (Hin it Hit) as (item & Hitem & _ & _ & ->).
    rewrite enumerate_snd in Hitem. rewrite Forall_forall in Hcero. by apply Hcero.
  - rewrite Hpos, <- Hlu, <- Hids, !length_fmap. apply (enumerate_fst 1).
Qed.

Lemma crear_trivia_ranking_witness :
  alcanzable ej_db
  ∧ (∃ t db',
       crear_trivia (TriviaCreate.Build "Otra" None [3; 1] [3; 2]) 200 ej_db
       = (Return t, db')
       ∧ ∃ ranking,
           obtener_ranking (Trivia.id t) db'
           = Return (RankingResponse.Build (Trivia.id t) "Otra" ranking)
           ∧ RankingItem.usuario_id <$> ranking = [3; 2]).
Proof.
  split; [exact alcanzable_ej_db|].
  destruct (crear_trivia (TriviaCreate.Build "Otra" None [3; 1] [3; 2]) 200 ej_db)
    as [[t|e] db'] eqn:E; [|vm_compute in E; discriminate E].
  exists t, db'. split; [done|].
  destruct (crear_trivia_ranking _ _ _ _ _ alcanzable_ej_db E)
    as (ranking & Hr & Hu & _).
  by exists ranking.
Defined.

(** ** The player's view in a database that was reached *)

Lemma enlazadas_NoDup (filas : list TriviaPregunta.t) (trivia_id : Z) :
  NoDup ((λ tp, (TriviaPregunta.trivia_id tp, TriviaPregunta.pregunta_id tp)) <$> filas) →
  NoDup (TriviaPregunta.pregunta_id <$>
           filter (λ tp, TriviaPregunta.trivia_id tp = trivia_id) filas).
Proof.
  induction filas as [|tp filas IH]; [constructor|].
  rewrite fmap_cons, NoDup_cons. intros [Htp Hnd].
  rewrite filter_cons. case_decide as Htid; [|by apply IH].
  rewrite fmap_cons. apply NoDup_cons. split; [|by apply IH].
  intros (tp' & Hid & [Htid' Hin]%list_elem_of_filter)%list_elem_of_fmap.
  apply Htp, list_elem_of_fmap. exists tp'. split; [|done].
  by rewrite Hid, Htid, Htid'.
Qed.

(** X19: In every database reached through the requests a user assigned to a
    trivia is shown one view per question linked to the trivia, in the order
    of the links: no linked question is missing and none is shown twice. *)
Theorem ver_trivia_jugador_orden trivia_id usuario_id db :
  alcanzable db →
  usuario_asignado db trivia_id usuario_id →
  ∃ qs,
    ver_trivia_jugador trivia_id usuario_id db = Return (vista_jugador <$> qs)
    ∧ Pregunta.id <$> qs
      = TriviaPregunta.pregunta_id <$>
          filter (λ tp, TriviaPregunta.trivia_id tp = trivia_id) (trivia_preguntas db)
    ∧ NoDup (Pregunta.id <$> qs)
    ∧ ∀ q, q ∈ qs → q ∈ preguntas db.
Proof.
  intros Hdb Ha.
  pose proof (alcanzable_consistente db Hdb) as [_ _ _ Hfkq Hfku _ _].
  pose proof (alcanzable_integra db Hdb) as [_ _ Hnd _ _].
  unfold ver_trivia_jugador.
  rewrite decide_False.
  2: { intros Hn. apply Hn. destruct Ha as (a & Ha & <- & <-).
       split; right; by apply Hfku. }
  apply (first_is_Some (λ a, TriviaUsuario.trivia_id a = trivia_id
                             ∧ TriviaUsuario.usuario_id a = usuario_id)) in Ha
    as [a ->].
  rewrite preguntas_jugador_omap, app_nil_l.
  destruct (omap_vista_jugador (preguntas db)
              (filter (λ tp, TriviaPregunta.trivia_id tp = trivia_id)
                      (trivia_preguntas db))) as (qs & -> & Hids & Hin).
  { intros tp [_ Htp]%list_elem_of_filter. by apply Hfkq. }
  exists qs. split; [done|]. split; [done|]. split; [|done].
  rewrite Hids. by apply enlazadas_NoDup.
Qed.

Lemma ver_trivia_jugador_orden_witness :
  alcanzable ej_db
  ∧ usuario_asignado ej_db 1 3
  ∧ ∃ qs, ver_trivia_jugador 1 3 ej_db = Return (vista_jugador <$> qs)
      ∧ Pregunta.id <$> qs
        = TriviaPregunta.pregunta_id <$>
            filter (λ tp, TriviaPregunta.trivia_id tp = 1) (trivia_preguntas ej_db).
Proof.
  assert (Ha : usuario_asignado ej_db 1 3).
  { apply (first_is_Some (λ a, TriviaUsuario.trivia_id a = 1
                               ∧ TriviaUsuario.usuario_id a = 3)).
    vm_compute. by eexists. }
  split; [exact alcanzable_ej_db|]. split; [exact Ha|].
  destruct (ver_trivia_jugador_orden 1 3 ej_db alcanzable_ej_db Ha)
    as (qs & Hv & Hids & _).
  by exists qs.
Defined.

(** ** Keys *)

(** X20: In every database reached through the requests ids are unique in
    [usuarios], [preguntas] and [trivias]; every link names a stored trivia
    and a stored question or user; and no trivia has the same question or
    the same user linked twice. *)
Theorem integridad_referencial db :
  alcanzable db →
  NoDup (Usuario.id <$> usuarios db)
  ∧ NoDup (Pregunta.id <$> preguntas db)
  ∧ NoDup (Trivia.id <$> trivias db)
  ∧ (∀ tp, tp ∈ trivia_preguntas db →
       existe_trivia db (TriviaPregunta.trivia_id tp)
       ∧ ∃ q, q ∈ preguntas db ∧ Pregunta.id q = TriviaPregunta.pregunta_id tp)
  ∧ (∀ a, a ∈ trivia_usuarios db →
       existe_trivia db (TriviaUsuario.trivia_id a)
       ∧ ∃ u, u ∈ usuarios db ∧ Usuario.id u = TriviaUsuario.usuario_id a)
  ∧ NoDup ((λ tp, (TriviaPregunta.trivia_id tp, TriviaPregunta.pregunta_id tp))
             <$> trivia_preguntas db)
  ∧ NoDup ((λ a, (TriviaUsuario.trivia_id a, TriviaUsuario.usuario_id a))
             <$> trivia_usuarios db).
Proof.
  intros Hdb.
  pose proof (alcanzable_consistente db Hdb) as [Hu Hq Ht Hfkq Hfku Hnu _].
  pose proof (alcanzable_integra db Hdb) as [_ _ Hnq _ _].
  do 3 (split; [done|]). split; [|split; [|done]].
  - intros tp Htp.
    destruct (Hfkq tp Htp) as [(t & -> & Hin)%list_elem_of_fmap
                                (q & -> & Hqin)%list_elem_of_fmap].
    split; [by exists t|by exists q].
  - intros a Ha.
    destruct (Hfku a Ha) as [(t & -> & Hin)%list_elem_of_fmap
                               (u & -> & Huin)%list_elem_of_fmap].
    split; [by exists t|by exists u].
Qed.

Lemma integridad_referencial_witness :
  alcanzable ej_db
  ∧ NoDup (Usuario.id <$> usuarios ej_db)
  ∧ NoDup ((λ a, (TriviaUsuario.trivia_id a, TriviaUsuario.usuario_id a))
             <$> trivia_usuarios ej_db).
Proof.
  split; [exact alcanzable_ej_db|].
  destruct (integridad_referencial ej_db alcanzable_ej_db)
    as (Hu & _ & _ & _ & _ & _ & Hnu).
  split; [exact Hu|exact Hnu].
Defined.

(** ** Ids that do not bind *)

Lemma no_enlaza (claves : list Z) (n : Z) :
  ¬ cabe n → n ∉ claves → ¬ enlaza claves n.
Proof. intros Hc Hn [?|?]; auto. Qed.

(** X21: [responder_pregunta] raises [OverflowError], and stores nothing,
    where a query is given an id that does not fit in a signed 64-bit
    integer and is no stored key: at once for the trivia id of the path; for
    the user id once the trivia has been found; for the question id once the
    user has been found assigned.  A trivia id that fits and names no
    trivia is answered with the 404 before the ids of the body are bound,
    whatever they are. *)
Theorem responder_pregunta_desbordada trivia_id participacion ahora db :
  let usuario_id := ParticipacionCreate.usuario_id participacion in
  let pregunta_id := ParticipacionCreate.pregunta_id participacion in
  (¬ cabe trivia_id → (trivia_id ∉ (Trivia.id <$> trivias db)) →
     responder_pregunta trivia_id participacion ahora db = (Raise OverflowError, db))
  ∧ (cabe trivia_id → ¬ existe_trivia db trivia_id →
     responder_pregunta trivia_id participacion ahora db
     = (Raise (error_trivia trivia_id), db))
  ∧ (existe_trivia db trivia_id →
     ¬ cabe usuario_id → (usuario_id ∉ (Usuario.id <$> usuarios db)) →
     responder_pregunta trivia_id participacion ahora db = (Raise OverflowError, db))
  ∧ (existe_trivia db trivia_id →
     usuario_asignado db trivia_id usuario_id →
     ¬ cabe pregunta_id → (pregunta_id ∉ (Pregunta.id <$> preguntas db)) →
     responder_pregunta trivia_id participacion ahora db = (Raise OverflowError, db)).
Proof.
  intros usuario_id pregunta_id. subst usuario_id pregunta_id.
  unfold responder_pregunta.
  split; [|split; [|split]].
  - intros Hc Hn. by rewrite decide_True by by apply no_enlaza.
  - intros Hc Hno. rewrite decide_False by (intros Hn; apply Hn; by left).
    destruct (head (filter _ (trivias db))) as [t|] eqn:E; [|done].
    apply first_Some in E as [? ?]. destruct Hno. by exists t.
  - intros Ht Hc Hn.
    rewrite decide_False by (intros Hx; by apply Hx, existe_trivia_enlaza).
    apply (first_is_Some (λ t, Trivia.id t = trivia_id)) in Ht as [t ->].
    by rewrite decide_True by by apply no_enlaza.
  - intros Ht Ha Hc Hn.
    rewrite decide_False by (intros Hx; by apply Hx, existe_trivia_enlaza).
    apply (first_is_Some (λ t, Trivia.id t = trivia_id)) in Ht as [t ->].
    destruct (decide (¬ enlaza_usuario db _)); [done|].
    apply (first_is_Some (λ a, TriviaUsuario.trivia_id a = trivia_id
                               ∧ TriviaUsuario.usuario_id a
                                 = ParticipacionCreate.usuario_id participacion)) in Ha
      as [a ->].
    by rewrite decide_True by by apply no_enlaza.
Qed.

Lemma responder_pregunta_desbordada_witness :
  existe_trivia ej_db 1
  ∧ ¬ cabe 9223372036854775808
  ∧ (9223372036854775808 ∉ (Usuario.id <$> usuarios ej_db))
  ∧ responder_pregunta 1 (ParticipacionCreate.Build 9223372036854775808 1 2 "A") 105 ej_db
    = (Raise OverflowError, ej_db)
  ∧ cabe 99 ∧ ¬ existe_trivia ej_db 99
  ∧ responder_pregunta 99 (ParticipacionCreate.Build 9223372036854775808 1 2 "A") 105 ej_db
    = (Raise (error_trivia 99), ej_db).
Proof.
  assert (H1 : existe_trivia ej_db 1).
  { apply (first_is_Some (λ t, Trivia.id t = 1)). vm_compute. by eexists. }
  assert (Hc : ¬ cabe 9223372036854775808) by decidir.
  assert (Hn : 9223372036854775808 ∉ (Usuario.id <$> usuarios ej_db)) by decidir.
  assert (C99 : cabe 99) by decidir.
  assert (H99 : ¬ existe_trivia ej_db 99).
  { intros Ht. apply (first_is_Some (λ t, Trivia.id t = 99)) in Ht.
    vm_compute in Ht. by destruct Ht. }
  destruct (responder_pregunta_desbordada 99
              (ParticipacionCreate.Build 9223372036854775808 1 2 "A") 105 ej_db)
    as (_ & H404 & _).
  destruct (responder_pregunta_desbordada 1
              (ParticipacionCreate.Build 9223372036854775808 1 2 "A") 105 ej_db)
    as (_ & _ & Hu & _).
  split; [exact H1|]. split; [exact Hc|]. split; [exact Hn|].
  split; [exact (Hu H1 Hc Hn)|].
  split; [exact C99|]. split; [exact H99|]. exact (H404 C99 H99).
Defined.


